(** * ssapi: the screenshot capture pipeline of [src/index.js]

    [src/index.js] holds two variants of the same Express application:
    - the strict variant (lines 1-628), whose URL validator has a hardened
      mode switched on by [NODE_ENV === 'production'];
    - the permissive variant (lines 629-999), with wider bounds, inline
      validation and no resource blocking.

    Both are embedded below.  Pure code (validators, the request
    interception policy, the screenshot options, the error classifier) is
    embedded as functions.  The asynchronous handlers are embedded in a small
    monad that threads the handler's mutable locals, the response object and
    the trace of browser operations, with JavaScript's [throw], [return],
    [try/catch] and [try/finally].  The browser (puppeteer) is not part of the
    repository: every call into it takes its outcome from a [World] record. *)

From Stdlib Require Import ZArith Lia Bool List String Ascii DecimalString.
From stdpp Require Import gmap strings.

Local Open Scope string_scope.
Local Open Scope Z_scope.

(** ** JavaScript values used by the code *)

(** Strings are sequences of code units; the model keeps the code units
    below 256.  Every literal the source compares with is ASCII. *)

Definition code (c : ascii) : Z := Z.of_nat (nat_of_ascii c).

Definition codeBetween (lo hi : Z) (c : ascii) : bool :=
  (lo <=? code c) && (code c <=? hi).

Definition isDigit (c : ascii) : bool := codeBetween 48 57 c.
Definition isUpper (c : ascii) : bool := codeBetween 65 90 c.
Definition isLower (c : ascii) : bool := codeBetween 97 122 c.
Definition isAlpha (c : ascii) : bool := isUpper c || isLower c.

(** The double quote, which the source writes inside template literals. *)
Definition dquote : string := String (ascii_of_nat 34) EmptyString.

Definition lowerChar (c : ascii) : ascii :=
  if isUpper c then ascii_of_nat (nat_of_ascii c + 32)
  else if codeBetween 192 222 c && negb (code c =? 215)
       then ascii_of_nat (nat_of_ascii c + 32)
  else c.

(** [String.prototype.toLowerCase]. *)
Fixpoint toLowerCase (s : string) : string :=
  match s with
  | EmptyString => EmptyString
  | String c r => String (lowerChar c) (toLowerCase r)
  end.

(** [String.prototype.startsWith]. *)
Fixpoint startsWith (s p : string) {struct p} : bool :=
  match p, s with
  | EmptyString, _ => true
  | String a p', String b s' => Ascii.eqb a b && startsWith s' p'
  | String _ _, EmptyString => false
  end.

(** [String.prototype.includes]: [sub] occurs somewhere in [s]. *)
Fixpoint includes (s sub : string) : bool :=
  startsWith s sub ||
  match s with
  | EmptyString => false
  | String _ r => includes r sub
  end.

(** [Array.prototype.includes] on an array of string literals. *)
Definition arrayIncludes (l : list string) (x : string) : bool :=
  existsb (String.eqb x) l.

(** A [/pattern/i] test for a literal ASCII pattern written in lower case:
    without the [u] flag a code unit outside ASCII never folds to an ASCII
    one, so the test is [includes] on the ASCII-lowered subject. *)
Definition asciiLower (c : ascii) : ascii :=
  if isUpper c then ascii_of_nat (nat_of_ascii c + 32) else c.

Fixpoint asciiLowerCase (s : string) : string :=
  match s with
  | EmptyString => EmptyString
  | String c r => String (asciiLower c) (asciiLowerCase r)
  end.

Definition testIgnoreCase (pattern s : string) : bool :=
  includes (asciiLowerCase s) pattern.

(** Numbers: [None] is [NaN].  The handlers only produce integers (from
    [parseInt]) and compare them with integer constants.  An integer above
    2^53 is rounded by the runtime to a double; rounding is monotone and
    leaves every bound of the source fixed, so the comparisons agree with
    the exact ones taken here. *)
Definition Num : Type := option Z.

Definition isNaN (n : Num) : bool :=
  match n with None => true | Some _ => false end.

(** [a < b] and [a > b]: false as soon as an operand is [NaN]. *)
Definition ltNum (a : Num) (b : Z) : bool :=
  match a with Some x => x <? b | None => false end.

Definition gtNum (a : Num) (b : Z) : bool :=
  match a with Some x => b <? x | None => false end.

(** *** parseInt (called with no radix) *)

(** [StrWhiteSpaceChar] below 256: TAB, LF, VT, FF, CR, SP, NBSP. *)
Definition isWhiteSpace (c : ascii) : bool :=
  codeBetween 9 13 c || (code c =? 32) || (code c =? 160).

Fixpoint trimStart (s : string) : string :=
  match s with
  | String c r => if isWhiteSpace c then trimStart r else s
  | EmptyString => EmptyString
  end.

Definition digitValue (c : ascii) : option Z :=
  if isDigit c then Some (code c - 48)
  else if isLower c then Some (code c - 87)
  else if isUpper c then Some (code c - 55)
  else None.

Definition radixDigit (R : Z) (c : ascii) : option Z :=
  match digitValue c with
  | Some d => if d <? R then Some d else None
  | None => None
  end.

(** The longest prefix of radix-[R] digits, read as an integer; [acc] is the
    value of the digits read so far, [None] when there are none yet. *)
Fixpoint parseDigits (R : Z) (acc : option Z) (s : string) : option Z :=
  match s with
  | String c r =>
      match radixDigit R c with
      | Some d =>
          parseDigits R (Some (match acc with Some a => a * R + d | None => d end)) r
      | None => acc
      end
  | EmptyString => acc
  end.

Definition stripSign (s : string) : Z * string :=
  match s with
  | String c r =>
      if Ascii.eqb c "-" then (-1, r)
      else if Ascii.eqb c "+" then (1, r)
      else (1, s)
  | EmptyString => (1, s)
  end.

Definition stripHexPrefix (s : string) : Z * string :=
  match s with
  | String c0 (String c1 r) =>
      if Ascii.eqb c0 "0" && (Ascii.eqb c1 "x" || Ascii.eqb c1 "X")
      then (16, r) else (10, s)
  | _ => (10, s)
  end.

Definition parseInt (input : string) : Num :=
  let '(sign, s1) := stripSign (trimStart input) in
  let '(R, s2) := stripHexPrefix s1 in
  match parseDigits R None s2 with
  | Some m => Some (sign * m)
  | None => None
  end.

(** ** The runtime's [URL] constructor

    [new URL(url)] is the WHATWG URL parser of the runtime, not code of the
    repository.  The validators read two fields of its result, [protocol]
    and [hostname], and catch its [TypeError].  The model follows the
    parser's states for input without a base URL: the scheme for every
    input and, for the special schemes with an authority ([http], [https],
    [ws], [wss], [ftp]), credentials, host, port and the IPv4
    canonicalisation of the host.  Left out, and outside every input used
    below: percent-decoding and IDNA mapping of the host, and the check that
    a bracketed host is a well-formed IPv6 address.  For the other schemes
    the text after the colon is not examined: the validators reject them on
    [protocol] alone. *)

Record URL : Type := mkURL { protocol : string; hostname : string }.

Fixpoint dropWhile (p : ascii -> bool) (s : string) : string :=
  match s with
  | String c r => if p c then dropWhile p r else s
  | EmptyString => EmptyString
  end.

Fixpoint takeWhile (p : ascii -> bool) (s : string) : string :=
  match s with
  | String c r => if p c then String c (takeWhile p r) else EmptyString
  | EmptyString => EmptyString
  end.

Fixpoint filterString (p : ascii -> bool) (s : string) : string :=
  match s with
  | String c r => if p c then String c (filterString p r) else filterString p r
  | EmptyString => EmptyString
  end.

Fixpoint allChars (p : ascii -> bool) (s : string) : bool :=
  match s with
  | String c r => p c && allChars p r
  | EmptyString => true
  end.

Fixpoint reverse (acc s : string) : string :=
  match s with
  | String c r => reverse (String c acc) r
  | EmptyString => acc
  end.

Definition isEmpty (s : string) : bool :=
  match s with EmptyString => true | String _ _ => false end.

Definition oneOf (chars : string) (c : ascii) : bool :=
  includes chars (String c EmptyString).

Definition isC0OrSpace (c : ascii) : bool := code c <=? 32.
Definition isTabOrNewline (c : ascii) : bool :=
  (code c =? 9) || (code c =? 10) || (code c =? 13).

Definition preprocess (input : string) : string :=
  let s1 := dropWhile isC0OrSpace input in
  let s2 := reverse EmptyString (dropWhile isC0OrSpace (reverse EmptyString s1)) in
  filterString (fun c => negb (isTabOrNewline c)) s2.

Definition isSchemeChar (c : ascii) : bool :=
  isAlpha c || isDigit c || oneOf "+-." c.

(** Scheme start state and scheme state: the lower-cased scheme and the
    text after its colon. *)
Definition parseScheme (s : string) : option (string * string) :=
  match s with
  | String c _ =>
      if isAlpha c then
        match dropWhile isSchemeChar s with
        | String c' rest =>
            if Ascii.eqb c' ":"
            then Some (asciiLowerCase (takeWhile isSchemeChar s), rest)
            else None
        | EmptyString => None
        end
      else None
  | EmptyString => None
  end.

(** Authority state: the text after the last [@], and whether an [@] was
    seen. *)
Fixpoint afterLastAt (s : string) : bool * string :=
  match s with
  | EmptyString => (false, EmptyString)
  | String c r =>
      let '(seen, tl) := afterLastAt r in
      if seen then (true, tl)
      else if Ascii.eqb c "@" then (true, r)
      else (false, String c tl)
  end.

(** Host state: the host ends at the first colon outside brackets; what
    follows is the port. *)
Fixpoint splitHostPort (inBrackets : bool) (s : string) : string * option string :=
  match s with
  | EmptyString => (EmptyString, None)
  | String c r =>
      if Ascii.eqb c ":" && negb inBrackets then (EmptyString, Some r)
      else
        let inB := if Ascii.eqb c "[" then true
                   else if Ascii.eqb c "]" then false else inBrackets in
        let '(h, p) := splitHostPort inB r in (String c h, p)
  end.

Definition validPort (p : option string) : bool :=
  match p with
  | None => true
  | Some digits =>
      allChars isDigit digits &&
      match parseDigits 10 None digits with
      | Some n => n <=? 65535
      | None => true
      end
  end.

Definition isForbiddenDomainCodePoint (c : ascii) : bool :=
  (code c <=? 32) || (code c =? 127) || oneOf "#/:<>?@[\]^|%" c.

Fixpoint splitOn (sep : ascii) (s : string) : list string :=
  match s with
  | EmptyString => [EmptyString]
  | String c r =>
      if Ascii.eqb c sep then EmptyString :: splitOn sep r
      else match splitOn sep r with
           | h :: t => String c h :: t
           | [] => [String c EmptyString]
           end
  end.

(** The IPv4 number parser: hexadecimal after [0x], octal after a leading
    [0], decimal otherwise; [None] is failure. *)
Definition parseIPv4Number (s : string) : option Z :=
  match s with
  | EmptyString => None
  | String c0 r0 =>
      let '(R, digits) :=
        match r0 with
        | String c1 r1 =>
            if Ascii.eqb c0 "0" && (Ascii.eqb c1 "x" || Ascii.eqb c1 "X")
            then (16, r1)
            else if Ascii.eqb c0 "0" then (8, r0)
            else (10, s)
        | EmptyString => (10, s)
        end in
      if isEmpty digits then Some 0
      else if allChars (fun c => bool_decide (is_Some (radixDigit R c))) digits
           then parseDigits R None digits
           else None
  end.

(** The parts of a host between dots, without one trailing empty part. *)
Definition ipv4Parts (host : string) : list string :=
  let parts := splitOn "." host in
  match rev parts with
  | EmptyString :: ((_ :: _) as front) => rev front
  | _ => parts
  end.

Definition endsInNumber (host : string) : bool :=
  match rev (ipv4Parts host) with
  | last :: _ =>
      (negb (isEmpty last) && allChars isDigit last) ||
      bool_decide (is_Some (parseIPv4Number last))
  | [] => false
  end.

(** The address of the numbers of an IPv4 host: every number but the last
    is one byte, at position [counter] from the left. *)
Fixpoint ipv4Value (counter : Z) (numbers : list Z) : option Z :=
  match numbers with
  | [] => None
  | [last] => Some last
  | n :: rest =>
      if 255 <? n then None
      else match ipv4Value (counter + 1) rest with
           | Some v => Some (n * 256 ^ (3 - counter) + v)
           | None => None
           end
  end.

Fixpoint mapM {A B : Type} (f : A -> option B) (l : list A) : option (list B) :=
  match l with
  | [] => Some []
  | a :: r =>
      match f a, mapM f r with
      | Some b, Some bs => Some (b :: bs)
      | _, _ => None
      end
  end.

Definition decimal (n : Z) : string :=
  NilZero.string_of_uint (N.to_uint (Z.to_N n)).

Definition serializeIPv4 (v : Z) : string :=
  decimal (v / 256 ^ 3) +:+ "." +:+ decimal (v / 256 ^ 2 mod 256) +:+ "." +:+
  decimal (v / 256 mod 256) +:+ "." +:+ decimal (v mod 256).

Definition parseIPv4 (host : string) : option string :=
  let parts := ipv4Parts host in
  let size := Z.of_nat (List.length parts) in
  if 4 <? size then None
  else
    match mapM parseIPv4Number parts with
    | Some numbers =>
        if 256 ^ (5 - size) <=? List.last numbers 0 then None
        else option_map serializeIPv4 (ipv4Value 0 numbers)
    | None => None
    end.

(** The host parser for a special scheme. *)
Definition parseHost (input : string) : option string :=
  if startsWith input "[" then
    if startsWith (reverse EmptyString input) "]"
    then Some (asciiLowerCase input) else None
  else
    let domain := asciiLowerCase input in
    if isEmpty domain then None
    else if negb (allChars (fun c => negb (isForbiddenDomainCodePoint c)) domain)
    then None
    else if endsInNumber domain then parseIPv4 domain
    else Some domain.

Definition isSpecialWithAuthority (scheme : string) : bool :=
  arrayIncludes ["http"; "https"; "ws"; "wss"; "ftp"] scheme.

(** [new URL(input)]: [None] when the constructor throws its [TypeError]. *)
Definition URL_new (input : string) : option URL :=
  match parseScheme (preprocess input) with
  | None => None
  | Some (scheme, rest) =>
      if isSpecialWithAuthority scheme then
        let authority :=
          takeWhile (fun c => negb (oneOf "/\?#" c)) (dropWhile (oneOf "/\") rest) in
        let '(_, hostport) := afterLastAt authority in
        let '(host, port) := splitHostPort false hostport in
        if validPort port then
          match parseHost host with
          | Some h => Some (mkURL (scheme +:+ ":") h)
          | None => None
          end
        else None
      else Some (mkURL (scheme +:+ ":") EmptyString)
  end.

(** The message of the [TypeError] thrown by [new URL]. *)
Definition URL_TypeError : string := "Invalid URL".

(** ** Requests, responses and the browser *)

(** [req.query]: the query string as a map from parameter names to their
    raw string values (a repeated or bracketed parameter, which Express
    would turn into an array or an object, is outside the model). *)
Abbreviation Query := (gmap string string).

(** A destructuring default: [const { k = d } = req.query]. *)
Definition field (q : Query) (k d : string) : string := default d (q !! k).

(** The deployment profile read from [process.env.NODE_ENV]. *)
Record Env : Type := mkEnv { NODE_ENV : option string }.

Definition production : Env := mkEnv (Some "production").
Definition development : Env := mkEnv None.

Definition isProductionEnv (env : Env) : bool :=
  bool_decide (NODE_ENV env = Some "production").

(** [clip] is written as [null] or left [undefined]. *)
Inductive Clip : Type := ClipNull | ClipUndefined.

(** The options object handed to [screenshot]; an absent key is [None]. *)
Record ScreenshotOptions : Type := mkOptions {
  type : string;
  fullPage : bool;
  omitBackground : option bool;
  captureBeyondViewport : option bool;
  clip : Clip;
  quality : option Num
}.

(** What the browser does with the options: the background is left out
    when [omitBackground] is present and true (its default is false). *)
Definition omitsBackground (o : ScreenshotOptions) : bool :=
  match omitBackground o with Some b => b | None => false end.

(** The JSON bodies carry [error] and, on some paths, [message]; the image
    response carries the headers derived from the request. *)
Inductive Response : Type :=
| Json (status : Z) (error : string) (message : option string)
| Image (format : string) (width height : Num).

Definition statusCode (r : Response) : Z :=
  match r with
  | Json s _ _ => s
  | Image _ _ _ => 200
  end.

(** Calls into the browser.  [Launch] is the call of [puppeteer.launch] and
    [BrowserUp] its success: from then on a browser process exists.
    [hasTouch], which only the strict variant passes to [setViewport], is
    always equal to [isMobile] there. *)
Inductive Event : Type :=
| Launch
| BrowserUp
| NewPage
| SetViewport (width height : Num) (isMobile : bool) (deviceScaleFactor : Z)
| SetUserAgent (userAgent : string)
| EmulateDark
| SetRequestInterception
| Goto (url : string) (waitUntil : list string) (timeout : Z)
| WaitForTimeout (ms : Num)
| Evaluate
| WaitForSelector (selector : string) (timeout : Z)
| QuerySelector (selector : string)
| ElementScreenshot (options : ScreenshotOptions)
| PageScreenshot (options : ScreenshotOptions)
| PageClose
| BrowserClose.

(** How an awaited promise settles. *)
Inductive Outcome : Type := Resolves | Rejects (message : string).

(** How [puppeteer.launch] settles.  The strict handler races it against a
    10 s timer: [Late] outcomes settle after that timer.  The permissive
    handler awaits the launch itself, so for it late is as good as in
    time.  [launch] has its own 30 s timeout, so it always settles. *)
Inductive LaunchOutcome : Type :=
| Launched
| LaunchFails (message : string)
| LaunchedLate
| LaunchFailsLate (message : string).

(** [page.$(selector)]: an element handle, [null], or a rejection. *)
Inductive QueryOutcome : Type :=
| Found
| NotFound
| QueryRejects (message : string).

(** The environment of one request: the outcome of every browser call, by
    call site, and whether the 25 s timer of [timeoutMiddleware] fires
    before the handler gets to respond. *)
Record World : Type := mkWorld {
  launch : LaunchOutcome;
  newPage : Outcome;
  setViewport : Outcome;
  setUserAgent : Outcome;
  emulateMediaFeatures : Outcome;
  setRequestInterception : Outcome;
  gotoPrimary : Outcome;
  gotoFallback : Outcome;
  waitForTimeout : Outcome;
  evaluate : Outcome;
  waitForSelector : Outcome;
  querySelector : QueryOutcome;
  elementScreenshot : Outcome;
  pageScreenshot : Outcome;
  pageClose : Outcome;
  browserClose : Outcome;
  timerFires : bool
}.

(** ** The handler monad *)

(** The state a handler run threads: its locals [browser] and [page]
    (false is [null]), the response once sent ([res.headersSent] is
    [is_Some]), and the trace of browser calls, oldest first. *)
Record State : Type := mkState {
  browser : bool;
  page : bool;
  response : option Response;
  trace : list Event
}.

Inductive Completion (A : Type) : Type :=
| Normal (a : A)
| Throw (message : string)
| Return.

Arguments Normal {A} a.
Arguments Throw {A} message.
Arguments Return {A}.

Definition M (A : Type) : Type := State -> Completion A * State.

#[export] Instance M_ret : MRet M := fun A (a : A) s => (Normal a, s).

#[export] Instance M_bind : MBind M := fun A B (k : A -> M B) (m : M A) s =>
  match m s with
  | (Normal a, s') => k a s'
  | (Throw e, s') => (Throw e, s')
  | (Return, s') => (Return, s')
  end.

Definition throw {A : Type} (message : string) : M A :=
  fun s => (Throw message, s).

Definition return_ {A : Type} : M A := fun s => (Return, s).

Definition getState : M State := fun s => (Normal s, s).

Definition emit (e : Event) : M unit :=
  fun s => (Normal tt, mkState (browser s) (page s) (response s) (trace s ++ [e])).

Definition setBrowser : M unit :=
  fun s => (Normal tt, mkState true (page s) (response s) (trace s)).

Definition setPage : M unit :=
  fun s => (Normal tt, mkState (browser s) true (response s) (trace s)).

(** [await] of a promise with the given outcome. *)
Definition await (o : Outcome) : M unit :=
  match o with
  | Resolves => mret tt
  | Rejects e => throw e
  end.

(** A browser call: recorded, then awaited. *)
Definition call (e : Event) (o : Outcome) : M unit := emit e ;; await o.

Definition when (b : bool) (m : M unit) : M unit := if b then m else mret tt.

(** [try { body } catch (error) { handler(error.message) }]. *)
Definition tryCatch {A : Type} (body : M A) (handler : string -> M A) : M A :=
  fun s =>
    match body s with
    | (Throw e, s') => handler e s'
    | r => r
    end.

(** [try { body } finally { cleanup }]: the cleanup runs on every
    completion of the body, and its own throw replaces that completion. *)
Definition tryFinally {A : Type} (body : M A) (cleanup : M unit) : M A :=
  fun s =>
    let '(c, s') := body s in
    match cleanup s' with
    | (Normal _, s'') => (c, s'')
    | (Throw e, s'') => (Throw e, s'')
    | (Return, s'') => (Return, s'')
    end.

(** [res.status(code).json(body)] and [res.set(headers); res.send(image)]:
    writing headers once they are sent throws. *)
Definition headersSentError : string :=
  "Cannot set headers after they are sent to the client".

Definition send (r : Response) : M unit :=
  fun s =>
    match response s with
    | Some _ => (Throw headersSentError, s)
    | None => (Normal tt, mkState (browser s) (page s) (Some r) (trace s))
    end.

(** Event kinds of the browser session. *)
Definition isLaunch (e : Event) : bool :=
  match e with Launch => true | _ => false end.

Definition isBrowserUp (e : Event) : bool :=
  match e with BrowserUp => true | _ => false end.

Definition isBrowserClose (e : Event) : bool :=
  match e with BrowserClose => true | _ => false end.

(** The number of events of a kind in a trace. *)
Definition count (p : Event -> bool) (t : list Event) : nat :=
  List.length (List.filter p t).

(** A browser process is leaked by a run when one came up and
    [browser.close()] was never called. *)
Definition leaksBrowser (t : list Event) : bool :=
  (0 <? count isBrowserUp t)%nat && (count isBrowserClose t =? 0)%nat.

(** The outcome of an Express middleware: it hands the request on with
    [next()], or it answers. *)
Inductive Middleware (R : Type) : Type :=
| Next (req : R)
| Respond (res : Response).

Arguments Next {R} req.
Arguments Respond {R} res.

(** What the [page.on('request', ...)] listener does with a request. *)
Inductive Decision : Type := Abort | Continue.

(** ** The strict variant ([src/index.js], lines 1-628) *)

Module Strict.

(** [req.validatedParams]. *)
Record Params : Type := mkParams {
  width : Num;
  height : Num;
  quality : Num;
  delay : Num;
  format : string;
  fullPage : bool;
  mobile : bool;
  darkMode : bool
}.

Record Request : Type := mkRequest {
  query : Query;
  validatedUrl : option string;
  validatedParams : option Params
}.

(** [/^(10\.|172\.(1[6-9]|2[0-9]|3[0-1])\.|192\.168\.|127\.|169\.254\.|::1$|localhost$)/]:
    every alternative is anchored at the start; the last two also at the
    end of the input. *)
Definition privateIpRegex (hostname : string) : bool :=
  startsWith hostname "10." ||
  match hostname with
  | String c1 (String c7 (String c2 (String dot (String a (String b (String dot' _)))))) =>
      Ascii.eqb c1 "1" && Ascii.eqb c7 "7" && Ascii.eqb c2 "2" &&
      Ascii.eqb dot "." && Ascii.eqb dot' "." &&
      ((Ascii.eqb a "1" && codeBetween 54 57 b) ||
       (Ascii.eqb a "2" && codeBetween 48 57 b) ||
       (Ascii.eqb a "3" && codeBetween 48 49 b))
  | _ => false
  end ||
  startsWith hostname "192.168." ||
  startsWith hostname "127." ||
  startsWith hostname "169.254." ||
  String.eqb hostname "::1" ||
  String.eqb hostname "localhost".

Definition suspiciousPatterns : list string :=
  ["file://"; "javascript:"; "data:"; "vbscript:"].

(** The [try] block of [validateUrl]: the message of the error it throws,
    if any. *)
Definition validateUrl_try (env : Env) (url : string) : option string :=
  match URL_new url with
  | None => Some URL_TypeError
  | Some urlObj =>
      if negb (arrayIncludes ["http:"; "https:"] (protocol urlObj))
      then Some "Only HTTP and HTTPS protocols are supported"
      else if isProductionEnv env && privateIpRegex (toLowerCase (hostname urlObj))
      then Some "Private and localhost URLs are not allowed"
      else if existsb (fun pattern => testIgnoreCase pattern url) suspiciousPatterns
      then Some "Suspicious URL pattern detected"
      else None
  end.

Definition validateUrl (env : Env) (req : Request) : Middleware Request :=
  match query req !! "url" with
  | None | Some EmptyString =>
      Respond (Json 400 "URL parameter is required" None)
  | Some url =>
      match validateUrl_try env url with
      | Some message => Respond (Json 400 "Invalid URL" (Some message))
      | None => Next (mkRequest (query req) (Some url) (validatedParams req))
      end
  end.

(** The [try] block of [validateParams]: the error message it throws, or
    the record it stores. *)
Definition validateParams_try (q : Query) : string + Params :=
  let width := field q "width" "1920" in
  let height := field q "height" "1080" in
  let quality := field q "quality" "80" in
  let delay := field q "delay" "0" in
  let format := field q "format" "png" in
  let fullPage := field q "fullPage" "false" in
  let mobile := field q "mobile" "false" in
  let darkMode := field q "darkMode" "false" in
  let widthNum := parseInt width in
  let heightNum := parseInt height in
  let qualityNum := parseInt quality in
  let delayNum := parseInt delay in
  let validBooleans := ["true"; "false"] in
  if isNaN widthNum || ltNum widthNum 100 || gtNum widthNum 1920
  then inl "Width must be between 100 and 1920 pixels"
  else if isNaN heightNum || ltNum heightNum 100 || gtNum heightNum 1080
  then inl "Height must be between 100 and 1080 pixels"
  else if negb (arrayIncludes ["png"; "jpeg"; "webp"] (toLowerCase format))
  then inl "Format must be png, jpeg, or webp"
  else if isNaN qualityNum || ltNum qualityNum 1 || gtNum qualityNum 100
  then inl "Quality must be between 1 and 100"
  else if isNaN delayNum || ltNum delayNum 0 || gtNum delayNum 5000
  then inl "Delay must be between 0 and 5000 milliseconds"
  else if negb (arrayIncludes validBooleans (toLowerCase fullPage))
  then inl "fullPage must be true or false"
  else if negb (arrayIncludes validBooleans (toLowerCase mobile))
  then inl "mobile must be true or false"
  else if negb (arrayIncludes validBooleans (toLowerCase darkMode))
  then inl "darkMode must be true or false"
  else inr (mkParams widthNum heightNum qualityNum delayNum
              (toLowerCase format)
              (String.eqb (toLowerCase fullPage) "true")
              (String.eqb (toLowerCase mobile) "true")
              (String.eqb (toLowerCase darkMode) "true")).

Definition validateParams (req : Request) : Middleware Request :=
  match validateParams_try (query req) with
  | inl message => Respond (Json 400 "Invalid parameters" (Some message))
  | inr params => Next (mkRequest (query req) (validatedUrl req) (Some params))
  end.

(** The listener installed by [page.on('request', ...)]. *)
Definition blockedDomains : list string :=
  ["google-analytics.com"; "googletagmanager.com"; "facebook.com";
   "doubleclick.net"; "googlesyndication.com"].

Definition requestListener (resourceType url : string) : Decision :=
  if arrayIncludes ["font"; "media"] resourceType ||
     existsb (fun domain => includes url domain) blockedDomains
  then Abort
  else Continue.

Definition screenshotOptions (params : Params) : ScreenshotOptions :=
  mkOptions (format params) (fullPage params)
    (Some (String.eqb (format params) "png"))
    (Some (fullPage params))
    ClipNull
    (if arrayIncludes ["jpeg"; "webp"] (format params)
     then Some (quality params) else None).

(** The status code and [error] text chosen in the [catch] block. *)
Definition classify (message : string) : Z * string :=
  if includes message "net::ERR_NAME_NOT_RESOLVED"
  then (400, "Website not found or unreachable")
  else if includes message "net::ERR_CONNECTION_REFUSED"
  then (400, "Connection refused by target website")
  else if includes message "Navigation timeout" || includes message "timeout"
  then (408, "Website took too long to load")
  else if includes message "ERR_BLOCKED_BY_CLIENT"
  then (400, "Request blocked by target website")
  else if includes message "ERR_TOO_MANY_REDIRECTS"
  then (400, "Too many redirects")
  else if includes message "Element" && includes message "not found"
  then (400, message)
  else (500, "Failed to capture screenshot").

Definition mobileUserAgent : string :=
  "Mozilla/5.0 (iPhone; CPU iPhone OS 15_0 like Mac OS X) AppleWebKit/605.1.15 (KHTML, like Gecko) Version/15.0 Mobile/15E148 Safari/604.1".

Definition desktopUserAgent : string :=
  "Mozilla/5.0 (Windows NT 10.0; Win64; x64) AppleWebKit/537.36 (KHTML, like Gecko) Chrome/120.0.0.0 Safari/537.36".

(** [browser = await Promise.race([getBrowser(), timeoutPromise])]: the
    launch is started; the race is won by whichever settles first. *)
Definition launchRace (w : World) : M unit :=
  emit Launch ;;
  match launch w with
  | Launched => emit BrowserUp ;; setBrowser
  | LaunchFails e => throw e
  | LaunchedLate | LaunchFailsLate _ => throw "Browser launch timeout"
  end.

(** Lines 312-324: the navigation, with its lenient second attempt. *)
Definition navigate (w : World) (url : string) : M unit :=
  tryCatch
    (call (Goto url ["domcontentloaded"; "networkidle2"] 15000) (gotoPrimary w))
    (fun _ => call (Goto url ["domcontentloaded"] 10000) (gotoFallback w)).

(** A JavaScript string is truthy when it is not empty. *)
Definition truthy (v : option string) : bool :=
  match v with
  | Some s => negb (isEmpty s)
  | None => false
  end.

(** Lines 358-374: the element or page capture. *)
Definition capture (w : World) (selector : option string)
    (options : ScreenshotOptions) : M unit :=
  if truthy selector then
    let sel := default EmptyString selector in
    tryCatch
      (call (WaitForSelector sel 5000) (waitForSelector w) ;;
       emit (QuerySelector sel) ;;
       match querySelector w with
       | Found => mret tt
       | NotFound =>
           throw ("Element with selector " +:+ dquote +:+ sel +:+ dquote +:+ " not found")
       | QueryRejects e => throw e
       end ;;
       call (ElementScreenshot options) (elementScreenshot w))
      (fun selectorError =>
         throw ("Failed to find or screenshot element " +:+ dquote +:+ sel +:+
                dquote +:+ ": " +:+ selectorError))
  else call (PageScreenshot options) (pageScreenshot w).

(** The [try] block of the handler. *)
Definition handler_try (w : World) (url : string) (params : Params)
    (selector : option string) : M unit :=
  launchRace w ;;
  call NewPage (newPage w) ;;
  setPage ;;
  call (SetViewport (width params) (height params) (mobile params)
          (if mobile params then 2 else 1))
       (setViewport w) ;;
  call (SetUserAgent (if mobile params then mobileUserAgent else desktopUserAgent))
       (setUserAgent w) ;;
  when (darkMode params) (call EmulateDark (emulateMediaFeatures w)) ;;
  call SetRequestInterception (setRequestInterception w) ;;
  navigate w url ;;
  when (gtNum (delay params) 0) (call (WaitForTimeout (delay params)) (waitForTimeout w)) ;;
  call Evaluate (evaluate w) ;;
  capture w selector (screenshotOptions params) ;;
  send (Image (format params) (width params) (height params)).

(** The [catch] block of the handler. *)
Definition handler_catch (message : string) : M unit :=
  let '(code, errorMessage) := classify message in
  s ← getState;
  when (negb (bool_decide (is_Some (response s))))
       (send (Json code errorMessage (Some message))).

(** The [finally] block of the handler. *)
Definition handler_finally (w : World) : M unit :=
  tryCatch
    (s ← getState;
     when (page s) (call PageClose (pageClose w)) ;;
     when (browser s) (call BrowserClose (browserClose w)))
    (fun _ => mret tt).

Definition handler (w : World) (req : Request) : M unit :=
  let url := default EmptyString (validatedUrl req) in
  let selector := query req !! "selector" in
  match validatedParams req with
  | Some params =>
      tryFinally
        (tryCatch (handler_try w url params selector) handler_catch)
        (handler_finally w)
  | None => throw "Cannot read properties of undefined"
  end.

(** What a request leaves behind: the response sent, if any, and the
    browser calls made. *)
Record Run : Type := mkRun { sent : option Response; calls : list Event }.

Definition timeoutResponse : Response :=
  Json 408 "Request timeout" (Some "Screenshot took too long to process").

(** [app.get('/screenshot', timeoutMiddleware, validateUrl, validateParams,
    handler)], past the rate limiter: [validation] is the chain of the two
    validators, [app] the whole route.  The validators run synchronously, so
    the 25 s timer can only fire while the handler is awaiting; the handler
    looks at [res.headersSent] only where it responds, so the timer's
    response is placed in the state the handler starts from.  A launch that
    settles after the launch race was lost brings its browser up once the
    handler is done. *)
Definition validation (env : Env) (q : Query) : Middleware Request :=
  match validateUrl env (mkRequest q None None) with
  | Respond res => Respond res
  | Next req => validateParams req
  end.

Definition app (env : Env) (w : World) (q : Query) : Run :=
  match validation env q with
  | Respond res => mkRun (Some res) []
  | Next req =>
      let s0 := mkState false false
                  (if timerFires w then Some timeoutResponse else None) [] in
      let '(_, s) := handler w req s0 in
      mkRun (response s)
            (trace s ++ match launch w with LaunchedLate => [BrowserUp] | _ => [] end)
  end.

End Strict.

(** ** The permissive variant ([src/index.js], lines 629-999) *)

Module Permissive.

Record Request : Type := mkRequest {
  query : Query;
  validatedUrl : option string
}.

Definition validateUrl (req : Request) : Middleware Request :=
  match query req !! "url" with
  | None | Some EmptyString =>
      Respond (Json 400 "URL parameter is required" None)
  | Some url =>
      match URL_new url with
      | Some urlObj =>
          if negb (arrayIncludes ["http:"; "https:"] (protocol urlObj))
          then Respond (Json 400
                 "Invalid URL format. Please provide a valid HTTP/HTTPS URL." None)
          else Next (mkRequest (query req) (Some url))
      | None =>
          Respond (Json 400
            "Invalid URL format. Please provide a valid HTTP/HTTPS URL." None)
      end
  end.

(** [browser = await getBrowser()]: no race, the launch itself is awaited. *)
Definition getBrowser (w : World) : M unit :=
  emit Launch ;;
  match launch w with
  | Launched | LaunchedLate => emit BrowserUp ;; setBrowser
  | LaunchFails e | LaunchFailsLate e => throw e
  end.

Definition truthy (v : option string) : bool :=
  match v with
  | Some s => negb (isEmpty s)
  | None => false
  end.

Definition screenshotOptions (format fullPage : string) (selector : option string)
    (qualityNum : Num) : ScreenshotOptions :=
  mkOptions format (String.eqb fullPage "true") None None
    (if truthy selector then ClipNull else ClipUndefined)
    (if String.eqb format "jpeg" || String.eqb format "webp"
     then Some qualityNum else None).

Definition mobileUserAgent : string :=
  "Mozilla/5.0 (iPhone; CPU iPhone OS 14_7_1 like Mac OS X) AppleWebKit/605.1.15 (KHTML, like Gecko) Version/14.1.2 Mobile/15E148 Safari/604.1".

Definition desktopUserAgent : string :=
  "Mozilla/5.0 (Windows NT 10.0; Win64; x64) AppleWebKit/537.36 (KHTML, like Gecko) Chrome/91.0.4472.124 Safari/537.36".

(** [return res.status(400).json({ error })] inside the [try] block. *)
Definition reject (error : string) : M unit :=
  send (Json 400 error None) ;; return_.

(** Lines 805-816: the element or page capture. *)
Definition capture (w : World) (selector : option string)
    (options : ScreenshotOptions) : M unit :=
  if truthy selector then
    let sel := default EmptyString selector in
    emit (QuerySelector sel) ;;
    match querySelector w with
    | Found => mret tt
    | NotFound =>
        throw ("Element with selector " +:+ dquote +:+ sel +:+ dquote +:+ " not found")
    | QueryRejects e => throw e
    end ;;
    call (ElementScreenshot options) (elementScreenshot w)
  else call (PageScreenshot options) (pageScreenshot w).

(** Lines 733-753: the input validation at the head of the [try] block. *)
Definition inputValidation (q : Query) : M unit :=
  let widthNum := parseInt (field q "width" "1920") in
  let heightNum := parseInt (field q "height" "1080") in
  let qualityNum := parseInt (field q "quality" "80") in
  let delayNum := parseInt (field q "delay" "0") in
  let format := field q "format" "png" in
  when (ltNum widthNum 100 || gtNum widthNum 3840)
       (reject "Width must be between 100 and 3840 pixels") ;;
  when (ltNum heightNum 100 || gtNum heightNum 2160)
       (reject "Height must be between 100 and 2160 pixels") ;;
  when (negb (arrayIncludes ["png"; "jpeg"; "webp"] format))
       (reject "Format must be png, jpeg, or webp") ;;
  when (ltNum qualityNum 1 || gtNum qualityNum 100)
       (reject "Quality must be between 1 and 100") ;;
  when (ltNum delayNum 0 || gtNum delayNum 10000)
       (reject "Delay must be between 0 and 10000 milliseconds").

(** Lines 782-786: the navigation. *)
Definition navigate (w : World) (url : string) : M unit :=
  call (Goto url ["networkidle2"] 30000) (gotoPrimary w).

(** The [try] block of the handler. *)
Definition handler_try (w : World) (q : Query) : M unit :=
  let url := default EmptyString (q !! "url") in
  let fullPage := field q "fullPage" "false" in
  let format := field q "format" "png" in
  let selector := q !! "selector" in
  let mobile := field q "mobile" "false" in
  let darkMode := field q "darkMode" "false" in
  let widthNum := parseInt (field q "width" "1920") in
  let heightNum := parseInt (field q "height" "1080") in
  let qualityNum := parseInt (field q "quality" "80") in
  let delayNum := parseInt (field q "delay" "0") in
  inputValidation q ;;
  getBrowser w ;;
  call NewPage (newPage w) ;;
  call (SetViewport widthNum heightNum (String.eqb mobile "true")
          (if String.eqb mobile "true" then 2 else 1))
       (setViewport w) ;;
  when (String.eqb darkMode "true") (call EmulateDark (emulateMediaFeatures w)) ;;
  call (SetUserAgent (if String.eqb mobile "true"
                      then mobileUserAgent else desktopUserAgent))
       (setUserAgent w) ;;
  navigate w url ;;
  when (gtNum delayNum 0) (call (WaitForTimeout delayNum) (waitForTimeout w)) ;;
  capture w selector (screenshotOptions format fullPage selector qualityNum) ;;
  send (Image format widthNum heightNum).

(** The [catch] block of the handler. *)
Definition handler_catch (message : string) : M unit :=
  if includes message "net::ERR_NAME_NOT_RESOLVED"
  then send (Json 400 "Website not found or unreachable" None) ;; return_
  else if includes message "Navigation timeout"
  then send (Json 408 "Website took too long to load (30s timeout)" None) ;; return_
  else send (Json 500 "Failed to capture screenshot" (Some message)).

(** The [finally] block of the handler. *)
Definition handler_finally (w : World) : M unit :=
  s ← getState;
  when (browser s) (call BrowserClose (browserClose w)).

Definition handler (w : World) (req : Request) : M unit :=
  tryFinally
    (tryCatch (handler_try w (query req)) handler_catch)
    (handler_finally w).

Record Run : Type := mkRun { sent : option Response; calls : list Event }.

(** [app.get('/screenshot', validateUrl, handler)], past the rate
    limiter. *)
Definition app (w : World) (q : Query) : Run :=
  match validateUrl (mkRequest q None) with
  | Respond res => mkRun (Some res) []
  | Next req =>
      let '(_, s) := handler w req (mkState false false None []) in
      mkRun (response s) (trace s)
  end.

End Permissive.

(** ** Vocabulary of the properties *)

(** A world in which every browser call succeeds and no timer fires. *)
Definition allResolve : World :=
  mkWorld Launched Resolves Resolves Resolves Resolves Resolves Resolves
          Resolves Resolves Resolves Resolves Found Resolves Resolves
          Resolves Resolves false.

Definition withLaunch (l : LaunchOutcome) (w : World) : World :=
  mkWorld l (newPage w) (setViewport w) (setUserAgent w)
          (emulateMediaFeatures w) (setRequestInterception w) (gotoPrimary w)
          (gotoFallback w) (waitForTimeout w) (evaluate w) (waitForSelector w)
          (querySelector w) (elementScreenshot w) (pageScreenshot w)
          (pageClose w) (browserClose w) (timerFires w).

Definition withGoto (primary fallback : Outcome) (w : World) : World :=
  mkWorld (launch w) (newPage w) (setViewport w) (setUserAgent w)
          (emulateMediaFeatures w) (setRequestInterception w) primary
          fallback (waitForTimeout w) (evaluate w) (waitForSelector w)
          (querySelector w) (elementScreenshot w) (pageScreenshot w)
          (pageClose w) (browserClose w) (timerFires w).

(** A page on which the selector never matches: [waitForSelector] rejects
    with the given message and [page.$] finds nothing. *)
Definition withoutElement (waitMessage : string) (w : World) : World :=
  mkWorld (launch w) (newPage w) (setViewport w) (setUserAgent w)
          (emulateMediaFeatures w) (setRequestInterception w) (gotoPrimary w)
          (gotoFallback w) (waitForTimeout w) (evaluate w) (Rejects waitMessage)
          NotFound (elementScreenshot w) (pageScreenshot w)
          (pageClose w) (browserClose w) (timerFires w).

Definition withSetViewport (o : Outcome) (w : World) : World :=
  mkWorld (launch w) (newPage w) o (setUserAgent w)
          (emulateMediaFeatures w) (setRequestInterception w) (gotoPrimary w)
          (gotoFallback w) (waitForTimeout w) (evaluate w) (waitForSelector w)
          (querySelector w) (elementScreenshot w) (pageScreenshot w)
          (pageClose w) (browserClose w) (timerFires w).

Definition withPageClose (o : Outcome) (w : World) : World :=
  mkWorld (launch w) (newPage w) (setViewport w) (setUserAgent w)
          (emulateMediaFeatures w) (setRequestInterception w) (gotoPrimary w)
          (gotoFallback w) (waitForTimeout w) (evaluate w) (waitForSelector w)
          (querySelector w) (elementScreenshot w) (pageScreenshot w)
          o (browserClose w) (timerFires w).

Definition exampleQuery : Query := {[ "url" := "https://example.com/" ]}.

Definition metadataUrl : string := "http://169.254.169.254/".
Definition scriptUrl : string := "javascript:alert(1)".

(** The state a handler starts from when no response was sent yet. *)
Definition initial : State := mkState false false None [].

(** The state after some more browser calls. *)
Definition after (s : State) (t : list Event) : State :=
  mkState (browser s) (page s) (response s) (trace s ++ t).

Definition isGoto (e : Event) : bool :=
  match e with Goto _ _ _ => true | _ => false end.

(** The value of a run of decimal digits, left to right from [acc]. *)
Fixpoint decimalValueFrom (acc : Z) (ds : string) : Z :=
  match ds with
  | String c r => decimalValueFrom (acc * 10 + (code c - 48)) r
  | EmptyString => acc
  end.

(** The integer formed by the leading decimal digits of a token, when it
    has any: [500] for [500.9], [800] for [800px]. *)
Definition leadingInteger (token : string) : option Z :=
  let ds := takeWhile isDigit token in
  if isEmpty ds then None else Some (decimalValueFrom 0 ds).

Definition hexPrefixed (token : string) : bool :=
  startsWith token "0x" || startsWith token "0X".

(** The bounds test the strict validator applies to a parsed number. *)
Definition outOfBounds (n : Num) (lo hi : Z) : bool :=
  isNaN n || ltNum n lo || gtNum n hi.

(** The verdict of the validators on a request: the refusal sent, or the
    validated values stored on the request. *)
Definition strictVerdict (m : Middleware Strict.Request)
  : Response + (option string * option Strict.Params) :=
  match m with
  | Respond res => inl res
  | Next req => inr (Strict.validatedUrl req, Strict.validatedParams req)
  end.

Definition permissiveVerdict (m : Middleware Permissive.Request)
  : Response + option string :=
  match m with
  | Respond res => inl res
  | Next req => inr (Permissive.validatedUrl req)
  end.

(** What the capture stage asks of the browser for a given [selector]
    parameter: the selector itself, as received, unless it is empty. *)
Definition strictCaptureOf (selector : string) (t : list Event) : Prop :=
  if isEmpty selector then exists o, In (PageScreenshot o) t
  else In (WaitForSelector selector 5000) t /\ In (QuerySelector selector) t /\
       exists o, In (ElementScreenshot o) t.

Definition permissiveCaptureOf (selector : string) (t : list Event) : Prop :=
  if isEmpty selector then exists o, In (PageScreenshot o) t
  else In (QuerySelector selector) t /\ exists o, In (ElementScreenshot o) t.

(** A computation is quiet for an event kind when it makes no call of that
    kind and leaves the [browser] local alone. *)
Definition quiet (p : Event -> bool) {A : Type} (m : M A) : Prop :=
  forall s, count p (trace (m s).2) = count p (trace s) /\
            browser (m s).2 = browser s.

(** Event kinds that only count launches, browsers coming up and
    [browser.close()] calls. *)
Definition sessionKind (p : Event -> bool) : Prop :=
  forall e, isLaunch e || isBrowserUp e || isBrowserClose e = false -> p e = false.

Definition resolves (o : Outcome) : bool :=
  match o with Resolves => true | Rejects _ => false end.

(** Unfolding of the monad's operations. *)
Ltac unfold_M :=
  lazy [mbind M_bind mret M_ret emit throw return_ getState await call when
        tryCatch tryFinally send setBrowser setPage
        fst snd browser page response trace].

(** ** Vocabulary of the further properties *)

(** The destructuring defaults of both variants (lines 126-135 and
    716-727), as the strings [parseInt] and the comparisons see. *)
Definition defaults : list (string * string) :=
  [("width", "1920"); ("height", "1080"); ("quality", "80"); ("delay", "0");
   ("format", "png"); ("fullPage", "false"); ("mobile", "false");
   ("darkMode", "false")].

(** The three boolean flags. *)
Definition flags : list string := ["fullPage"; "mobile"; "darkMode"].

(** A computation keeps a property of the response when, started with the
    property, it ends with it, however it completes. *)
Definition keeps (J : option Response -> Prop) {A : Type} (m : M A) : Prop :=
  forall s, J (response s) -> J (response (m s).2).

(** A computation answers when its normal completion leaves a response
    sent, and settles when its early [return] does. *)
Definition answers (m : M unit) : Prop :=
  forall s, (m s).1 = Normal tt -> is_Some (response (m s).2).

Definition settles {A : Type} (m : M A) : Prop :=
  forall s, (m s).1 = Return -> is_Some (response (m s).2).

(** The status codes the handlers and validators use. *)
Definition knownStatus (r : Response) : Prop :=
  In (statusCode r) [200; 400; 408; 500].

(** A response, if sent, has a known status. *)
Definition knownStatusIfSent (o : option Response) : Prop :=
  match o with
  | Some r => knownStatus r
  | None => True
  end.

(** A response, if sent and an image, carries the given format and
    dimensions. *)
Definition imageOf (format : string) (width height : Num) (o : option Response) : Prop :=
  match o with
  | Some (Image f w h) => f = format /\ w = width /\ h = height
  | _ => True
  end.

(** The life cycle of a puppeteer session, by the calls made so far: a
    browser is launched once and comes up after its launch; a page is asked
    of a browser that is up; the page is set up and navigated while it is
    open; its content is waited for, evaluated, queried and captured only
    once a navigation was started; the page is closed once, the browser is
    closed once, and nothing is called on a closed page or after the
    browser is closed. *)
Inductive Stage : Type :=
| Idle | Launching | Up | PageOpen | Navigated | PageClosed | Closed.

Definition lifecycle (st : Stage) (e : Event) : option Stage :=
  match st, e with
  | Idle, Launch => Some Launching
  | Launching, BrowserUp => Some Up
  | Up, NewPage => Some PageOpen
  | (PageOpen | Navigated),
    (SetViewport _ _ _ _ | SetUserAgent _ | EmulateDark | SetRequestInterception) =>
      Some st
  | (PageOpen | Navigated), Goto _ _ _ => Some Navigated
  | Navigated,
    (WaitForTimeout _ | Evaluate | WaitForSelector _ _ | QuerySelector _
     | ElementScreenshot _ | PageScreenshot _) => Some Navigated
  | (PageOpen | Navigated), PageClose => Some PageClosed
  | (Up | PageOpen | Navigated | PageClosed), BrowserClose => Some Closed
  | _, _ => None
  end.

Definition advance (o : option Stage) (e : Event) : option Stage :=
  match o with
  | Some st => lifecycle st e
  | None => None
  end.

(** The stage a sequence of calls leads to, if it follows the life cycle. *)
Definition stageOf (t : list Event) : option Stage := fold_left advance t (Some Idle).

Definition conforms (t : list Event) : bool :=
  match stageOf t with
  | Some _ => true
  | None => false
  end.

Definition pageLive (st : Stage) : bool :=
  match st with
  | PageOpen | Navigated => true
  | _ => false
  end.

Definition browserLive (st : Stage) : bool :=
  match st with
  | Up | PageOpen | Navigated | PageClosed => true
  | _ => false
  end.

(** The handler is at a stage, and holds a page or a browser only where
    the stage has one. *)
Definition inStage (st : Stage) (s : State) : Prop :=
  stageOf (trace s) = Some st /\
  (page s = true -> pageLive st = true) /\
  (browser s = true -> browserLive st = true).

Definition coherent (s : State) : Prop := exists st, inStage st s.

(** From a state in [P], the computation completes normally in [Q], or
    abruptly in [E]. *)
Definition hoare {A : Type} (P : State -> Prop) (m : M A) (Q E : State -> Prop) : Prop :=
  forall s, P s ->
    match (m s).1 with
    | Normal _ => Q (m s).2
    | _ => E (m s).2
    end.

Definition isCapture (e : Event) : bool :=
  match e with
  | ElementScreenshot _ | PageScreenshot _ => true
  | _ => false
  end.







(** The numeric parameters as the documentation endpoints [GET /] present
    them (lines 496-537 and 889-925): name, [default] and [range]. *)
Definition strictDocumentation : list (string * Z * string) :=
  [("width", 1920, "100-1920"); ("height", 1080, "100-1080");
   ("quality", 80, "1-100"); ("delay", 0, "0-5000")].

Definition permissiveDocumentation : list (string * Z * string) :=
  [("width", 1920, "100-3840"); ("height", 1080, "100-2160");
   ("quality", 80, "1-100"); ("delay", 0, "0-10000")].

(** The bounds a documented [range] names. *)
Definition rangeOf (range : string) : option (Z * Z) :=
  match splitOn "-" range with
  | [lo; hi] =>
      match parseInt lo, parseInt hi with
      | Some a, Some b => Some (a, b)
      | _, _ => None
      end
  | _ => None
  end.

(** Every call of the computation satisfies [P], if those made before it
    do. *)
Definition emits (P : Event -> Prop) {A : Type} (m : M A) : Prop :=
  forall s, Forall P (trace s) -> Forall P (trace (m s).2).

(** What a browser call of the strict handler may carry, given the
    validated URL, the validated parameters and the selector of the
    request. *)
Definition asValidated (url : string) (p : Strict.Params) (selector : option string)
    (e : Event) : Prop :=
  match e with
  | SetViewport wd ht m d =>
      wd = Strict.width p /\ ht = Strict.height p /\ m = Strict.mobile p /\
      d = (if m then 2 else 1)
  | SetUserAgent ua =>
      ua = (if Strict.mobile p then Strict.mobileUserAgent else Strict.desktopUserAgent)
  | EmulateDark => Strict.darkMode p = true
  | Goto u _ t => u = url /\ (t = 15000 \/ t = 10000)
  | WaitForTimeout ms => ms = Strict.delay p /\ gtNum ms 0 = true
  | WaitForSelector sel t => selector = Some sel /\ sel <> EmptyString /\ t = 5000
  | QuerySelector sel => selector = Some sel /\ sel <> EmptyString
  | ElementScreenshot o =>
      o = Strict.screenshotOptions p /\ Strict.truthy selector = true
  | PageScreenshot o =>
      o = Strict.screenshotOptions p /\ Strict.truthy selector = false
  | _ => True
  end.

(** The same for the permissive handler, which reads the query itself. *)
Definition asRequested (q : Query) (e : Event) : Prop :=
  match e with
  | SetViewport wd ht m d =>
      wd = parseInt (field q "width" "1920") /\
      ht = parseInt (field q "height" "1080") /\
      m = String.eqb (field q "mobile" "false") "true" /\
      d = (if m then 2 else 1)
  | SetUserAgent ua =>
      ua = (if String.eqb (field q "mobile" "false") "true"
            then Permissive.mobileUserAgent else Permissive.desktopUserAgent)
  | EmulateDark => field q "darkMode" "false" = "true"
  | Goto u wu t => q !! "url" = Some u /\ wu = ["networkidle2"] /\ t = 30000
  | WaitForTimeout ms => ms = parseInt (field q "delay" "0") /\ gtNum ms 0 = true
  | QuerySelector sel => q !! "selector" = Some sel /\ sel <> EmptyString
  | ElementScreenshot o =>
      type o = field q "format" "png" /\ Permissive.truthy (q !! "selector") = true
  | PageScreenshot o =>
      type o = field q "format" "png" /\ Permissive.truthy (q !! "selector") = false
  | SetRequestInterception | Evaluate | WaitForSelector _ _ | PageClose => False
  | _ => True
  end.

(** ** Properties *)

(** *** Strings, maps and numbers *)

Lemma arrayIncludes_In (l : list string) (x : string) :
  arrayIncludes l x = true <-> In x l.
Proof.
  unfold arrayIncludes. rewrite existsb_exists. split.
  - intros (y & Hy & E). apply String.eqb_eq in E. now subst.
  - intros H. exists x. split; [exact H | apply String.eqb_refl].
Qed.

Lemma ifSome {A : Type} (b : bool) (v x : A) :
  (if b then Some v else None) = Some x <-> x = v /\ b = true.
Proof. destruct b; split; intros H; try discriminate; try tauto; intuition congruence. Qed.

Lemma field_insert_eq (q : Query) (k v d : string) :
  field (<[k := v]> q) k d = v.
Proof. unfold field. now rewrite lookup_insert_eq. Qed.

Lemma field_insert_ne (q : Query) (k k' v d : string) :
  k <> k' -> field (<[k := v]> q) k' d = field q k' d.
Proof. intros H. unfold field. now rewrite lookup_insert_ne. Qed.

Lemma inBounds (v lo hi : Z) :
  lo <= v <= hi -> ltNum (Some v) lo || gtNum (Some v) hi = false.
Proof.
  intros H. cbn. apply orb_false_iff. split; apply Z.ltb_ge; lia.
Qed.

Lemma not_outOfBounds (v lo hi : Z) :
  lo <= v <= hi -> isNaN (Some v) || ltNum (Some v) lo || gtNum (Some v) hi = false.
Proof. intros H. cbn [isNaN orb]. now apply inBounds. Qed.

(** *** parseInt on a token that starts with digits *)

Lemma radixDigit_decimal (c : ascii) :
  radixDigit 10 c = if isDigit c then Some (code c - 48) else None.
Proof.
  unfold radixDigit, digitValue, isDigit, isLower, isUpper, codeBetween.
  repeat match goal with
         | |- context [if ?b then _ else _] => destruct b eqn:?
         end; try reflexivity; exfalso;
    repeat match goal with
           | H : (_ && _) = true |- _ => apply andb_true_iff in H; destruct H
           | H : (_ && _) = false |- _ => apply andb_false_iff in H
           | H : (_ <=? _) = true |- _ => apply Z.leb_le in H
           | H : (_ <=? _) = false |- _ => apply Z.leb_gt in H
           | H : (_ <? _) = true |- _ => apply Z.ltb_lt in H
           | H : (_ <? _) = false |- _ => apply Z.ltb_ge in H
           end; lia.
Qed.

Lemma parseDigits_decimal (s : string) (acc : Z) :
  parseDigits 10 (Some acc) s = Some (decimalValueFrom acc (takeWhile isDigit s)).
Proof.
  revert acc. induction s as [| c r IH]; intros acc; cbn [parseDigits takeWhile].
  - reflexivity.
  - rewrite radixDigit_decimal. destruct (isDigit c); cbn [decimalValueFrom].
    + apply IH.
    + reflexivity.
Qed.

Lemma digit_not_space (c : ascii) : isDigit c = true -> isWhiteSpace c = false.
Proof.
  unfold isDigit, isWhiteSpace, codeBetween. intros H.
  apply andb_true_iff in H. destruct H as [H1 H2].
  apply Z.leb_le in H1. apply Z.leb_le in H2.
  repeat (apply orb_false_iff; split);
    [apply andb_false_iff; right; apply Z.leb_gt; lia
    | apply Z.eqb_neq; lia | apply Z.eqb_neq; lia].
Qed.

Lemma digit_not_sign (c : ascii) :
  isDigit c = true -> Ascii.eqb c "-" = false /\ Ascii.eqb c "+" = false.
Proof.
  intros H. split; apply Ascii.eqb_neq; intros ->; vm_compute in H; discriminate.
Qed.

(** A token that starts with decimal digits and not with [0x] or [0X] is
    read by [parseInt] as the integer those digits form; what follows the
    digits is ignored. *)
Lemma parseInt_leadingInteger (token : string) (v : Z) :
  leadingInteger token = Some v -> hexPrefixed token = false ->
  parseInt token = Some v.
Proof.
  unfold leadingInteger, hexPrefixed, parseInt. cbv zeta.
  destruct token as [| c r]; cbn [takeWhile isEmpty]; [intros; discriminate |].
  destruct (isDigit c) eqn:D; cbn [isEmpty]; [| intros; discriminate].
  intros Hv Hx. injection Hv as <-.
  cbn [trimStart]. rewrite (digit_not_space c D).
  unfold stripSign. destruct (digit_not_sign c D) as [-> ->].
  assert (E : stripHexPrefix (String c r) = (10, String c r)).
  { unfold stripHexPrefix. destruct r as [| c1 r1]; [reflexivity |].
    destruct (Ascii.eqb c "0" && (Ascii.eqb c1 "x" || Ascii.eqb c1 "X")) eqn:P;
      [| reflexivity].
    exfalso. apply andb_true_iff in P. destruct P as [P0 P1].
    apply Ascii.eqb_eq in P0. subst c.
    apply orb_true_iff in P1. destruct P1 as [P1 | P1];
      apply Ascii.eqb_eq in P1; subst c1; vm_compute in Hx; discriminate. }
  rewrite E. cbn [parseDigits]. rewrite radixDigit_decimal, D.
  rewrite parseDigits_decimal. cbn [decimalValueFrom].
  f_equal. destruct (decimalValueFrom _ _); reflexivity.
Qed.

(** *** The validators *)

(** A request the strict validators let through carries the raw query
    unchanged, the validated URL and the validated parameters. *)
Lemma validation_Next (env : Env) (q : Query) (req : Strict.Request) :
  Strict.validation env q = Next req ->
  exists url p,
    req = Strict.mkRequest q (Some url) (Some p) /\
    q !! "url" = Some url /\
    Strict.validateUrl_try env url = None /\
    Strict.validateParams_try q = inr p.
Proof.
  unfold Strict.validation, Strict.validateUrl, Strict.validateParams.
  cbn [Strict.query].
  destruct (q !! "url") as [[| c u] |]; try discriminate.
  destruct (Strict.validateUrl_try env (String c u)) eqn:U; try discriminate.
  cbn [Strict.query Strict.validatedUrl].
  destruct (Strict.validateParams_try q) as [message | p] eqn:P; try discriminate.
  intros [= <-]. exists (String c u), p. auto.
Qed.

Lemma validateParams_try_selector (q : Query) (s : string) :
  Strict.validateParams_try (<["selector" := s]> q) = Strict.validateParams_try q.
Proof.
  unfold Strict.validateParams_try.
  rewrite !field_insert_ne by discriminate. reflexivity.
Qed.

Lemma strict_validation_selector (env : Env) (q : Query) (s : string) :
  strictVerdict (Strict.validation env (<["selector" := s]> q))
  = strictVerdict (Strict.validation env q).
Proof.
  unfold Strict.validation, Strict.validateUrl, Strict.validateParams.
  cbn [Strict.query]. rewrite lookup_insert_ne by discriminate.
  destruct (q !! "url") as [[| c u] |]; try reflexivity.
  destruct (Strict.validateUrl_try env (String c u)); [reflexivity |].
  cbn [Strict.query Strict.validatedUrl].
  rewrite validateParams_try_selector.
  destruct (Strict.validateParams_try q); reflexivity.
Qed.

Lemma inputValidation_selector (q : Query) (s : string) :
  Permissive.inputValidation (<["selector" := s]> q) = Permissive.inputValidation q.
Proof.
  unfold Permissive.inputValidation.
  rewrite !field_insert_ne by discriminate. reflexivity.
Qed.

Lemma permissive_validateUrl_selector (q : Query) (s : string) :
  permissiveVerdict
    (Permissive.validateUrl (Permissive.mkRequest (<["selector" := s]> q) None))
  = permissiveVerdict (Permissive.validateUrl (Permissive.mkRequest q None)).
Proof.
  unfold Permissive.validateUrl. cbn [Permissive.query].
  rewrite lookup_insert_ne by discriminate.
  destruct (q !! "url") as [[| c u] |]; try reflexivity.
  destruct (URL_new (String c u)) as [urlObj |]; [| reflexivity].
  destruct (negb _); reflexivity.
Qed.

Lemma permissive_validateUrl_Next (q : Query) (req : Permissive.Request) :
  Permissive.validateUrl (Permissive.mkRequest q None) = Next req ->
  Permissive.query req = q.
Proof.
  unfold Permissive.validateUrl. cbn [Permissive.query].
  destruct (q !! "url") as [[| c u] |]; try discriminate.
  destruct (URL_new (String c u)); try discriminate.
  destruct (negb _); try discriminate.
  now intros [= <-].
Qed.

(** The permissive input validation passes exactly when none of its five
    guards holds. *)
Lemma inputValidation_passes (q : Query) (s : State) :
  Permissive.inputValidation q s = (Normal tt, s) <->
  ltNum (parseInt (field q "width" "1920")) 100
    || gtNum (parseInt (field q "width" "1920")) 3840 = false /\
  ltNum (parseInt (field q "height" "1080")) 100
    || gtNum (parseInt (field q "height" "1080")) 2160 = false /\
  arrayIncludes ["png"; "jpeg"; "webp"] (field q "format" "png") = true /\
  ltNum (parseInt (field q "quality" "80")) 1
    || gtNum (parseInt (field q "quality" "80")) 100 = false /\
  ltNum (parseInt (field q "delay" "0")) 0
    || gtNum (parseInt (field q "delay" "0")) 10000 = false.
Proof.
  unfold Permissive.inputValidation, Permissive.reject. cbv zeta.
  destruct (ltNum (parseInt (field q "width" "1920")) 100 || _);
  destruct (ltNum (parseInt (field q "height" "1080")) 100 || _);
  destruct (arrayIncludes _ _);
  destruct (ltNum (parseInt (field q "quality" "80")) 1 || _);
  destruct (ltNum (parseInt (field q "delay" "0")) 0 || _);
  destruct s as [b pg [r |] t]; unfold_M;
    (split; [intros H; try discriminate H
            | intros (H1 & H2 & H3 & H4 & H5); try discriminate]);
    repeat split; reflexivity.
Qed.

(** The strict validators refuse every request with a numeric parameter
    that is not an integer within its bounds, before any browser call. *)
Lemma strict_out_of_bounds_refused (env : Env) (w : World) (q : Query)
    (req : Strict.Request) :
  Strict.validateUrl env (Strict.mkRequest q None None) = Next req ->
  outOfBounds (parseInt (field q "width" "1920")) 100 1920
  || outOfBounds (parseInt (field q "height" "1080")) 100 1080
  || outOfBounds (parseInt (field q "quality" "80")) 1 100
  || outOfBounds (parseInt (field q "delay" "0")) 0 5000 = true ->
  exists message,
    Strict.app env w q
    = Strict.mkRun (Some (Json 400 "Invalid parameters" (Some message))) [].
Proof.
  intros U B. unfold Strict.app, Strict.validation. rewrite U.
  assert (Q : Strict.query req = q).
  { unfold Strict.validateUrl in U. cbn [Strict.query] in U.
    destruct (q !! "url") as [[| c u] |]; try discriminate U.
    destruct (Strict.validateUrl_try env (String c u)); try discriminate U.
    now injection U as <-. }
  unfold Strict.validateParams, Strict.validateParams_try. rewrite Q. cbv zeta.
  unfold outOfBounds in B.
  destruct (isNaN (parseInt (field q "width" "1920")) || _ || _); [eauto |].
  destruct (isNaN (parseInt (field q "height" "1080")) || _ || _); [eauto |].
  destruct (negb (arrayIncludes _ _)); [eauto |].
  destruct (isNaN (parseInt (field q "quality" "80")) || _ || _); [eauto |].
  destruct (isNaN (parseInt (field q "delay" "0")) || _ || _); [eauto |].
  discriminate B.
Qed.

(** *** URL validation *)

(** C4: the link-local address [http://169.254.169.254/] is refused as a
    private host when [NODE_ENV] is [production], and is accepted by the
    same validator outside production and by the permissive variant's
    validator, whatever the other query parameters are. *)
Theorem C4_link_local_address (q : Query) :
  Strict.validateUrl production (Strict.mkRequest (<["url" := metadataUrl]> q) None None)
  = Respond (Json 400 "Invalid URL" (Some "Private and localhost URLs are not allowed"))
  /\
  Strict.validateUrl development (Strict.mkRequest (<["url" := metadataUrl]> q) None None)
  = Next (Strict.mkRequest (<["url" := metadataUrl]> q) (Some metadataUrl) None)
  /\
  Permissive.validateUrl (Permissive.mkRequest (<["url" := metadataUrl]> q) None)
  = Next (Permissive.mkRequest (<["url" := metadataUrl]> q) (Some metadataUrl)).
Proof.
  unfold Strict.validateUrl, Permissive.validateUrl; cbn [Strict.query Permissive.query].
  rewrite lookup_insert_eq.
  repeat split; vm_compute; reflexivity.
Qed.

(** C5, as stated, fails: in production the strict validator refuses
    [javascript:alert(1)] at its protocol check, which comes before the
    suspicious-pattern check, so the rule reported is not the
    suspicious-pattern one. *)
Lemma C5_reported_rule_is_protocol :
  Strict.validateUrl production (Strict.mkRequest {[ "url" := scriptUrl ]} None None)
  = Respond (Json 400 "Invalid URL" (Some "Only HTTP and HTTPS protocols are supported"))
  /\
  Strict.validateUrl production (Strict.mkRequest {[ "url" := scriptUrl ]} None None)
  <> Respond (Json 400 "Invalid URL" (Some "Suspicious URL pattern detected")).
Proof.
  assert (E : Strict.validateUrl production
                (Strict.mkRequest {[ "url" := scriptUrl ]} None None)
              = Respond (Json 400 "Invalid URL"
                  (Some "Only HTTP and HTTPS protocols are supported")))
    by (vm_compute; reflexivity).
  split; [exact E | rewrite E; discriminate].
Qed.

(** C5, amended: [javascript:alert(1)] is refused with a 400 in every
    profile; the strict validator reports the protocol rule, the permissive
    one its single invalid-format error. *)
Theorem C5_script_url_refused (env : Env) (q : Query) :
  Strict.validateUrl env (Strict.mkRequest (<["url" := scriptUrl]> q) None None)
  = Respond (Json 400 "Invalid URL" (Some "Only HTTP and HTTPS protocols are supported"))
  /\
  Permissive.validateUrl (Permissive.mkRequest (<["url" := scriptUrl]> q) None)
  = Respond (Json 400 "Invalid URL format. Please provide a valid HTTP/HTTPS URL." None).
Proof.
  unfold Strict.validateUrl, Permissive.validateUrl; cbn [Strict.query Permissive.query].
  rewrite lookup_insert_eq.
  split; reflexivity.
Qed.

(** *** The request interception policy *)

(** The listener aborts exactly the requests of type [font] or [media] and
    those whose URL contains a deny-listed domain, and continues every
    other one.  The resource type [document] gets no special treatment. *)
Lemma requestListener_spec (resourceType url : string) :
  (Strict.requestListener resourceType url = Abort <->
     resourceType = "font" \/ resourceType = "media" \/
     exists domain, In domain Strict.blockedDomains /\ includes url domain = true)
  /\
  (Strict.requestListener resourceType url = Continue <->
     Strict.requestListener resourceType url <> Abort).
Proof.
  assert (A : Strict.requestListener resourceType url = Abort <->
     resourceType = "font" \/ resourceType = "media" \/
     exists domain, In domain Strict.blockedDomains /\ includes url domain = true).
  { unfold Strict.requestListener.
    destruct (arrayIncludes ["font"; "media"] resourceType) eqn:T; cbn [orb].
    - apply arrayIncludes_In in T. cbn in T. intuition.
    - destruct (existsb _ _) eqn:D.
      + apply existsb_exists in D. destruct D as (d & Hd & Hi). split; eauto.
      + split; [discriminate |].
        intros [-> | [-> | (d & Hd & Hi)]]; try discriminate T.
        assert (existsb (fun domain => includes url domain) Strict.blockedDomains = true)
          by (apply existsb_exists; eauto).
        congruence. }
  split; [exact A |].
  destruct (Strict.requestListener resourceType url); split; congruence.
Qed.

(** C7: the policy aborts the primary document request of a page whose own
    address contains a deny-listed domain, here the navigation to
    [https://www.facebook.com/]. *)
Theorem C7_primary_document_aborted :
  Strict.requestListener "document" "https://www.facebook.com/" = Abort.
Proof. reflexivity. Qed.

(** *** The screenshot options *)

(** C8, as stated, fails on the permissive variant: its options never carry
    [omitBackground], so a png capture keeps its background. *)
Lemma C8_permissive_png_keeps_background :
  omitsBackground (Permissive.screenshotOptions "png" "false" None (Some 80)) = false.
Proof. reflexivity. Qed.

(** C8, amended: the strict variant omits the background exactly for png
    and passes the requested quality exactly for jpeg and webp; the
    permissive variant passes the quality in the same way and never omits
    the background. *)
Theorem C8_screenshot_options (params : Strict.Params)
    (format fullPage : string) (selector : option string) (qualityNum : Num) :
  let strict := Strict.screenshotOptions params in
  let permissive := Permissive.screenshotOptions format fullPage selector qualityNum in
  (omitsBackground strict = true <-> Strict.format params = "png") /\
  (forall x, quality strict = Some x <->
     x = Strict.quality params /\
     (Strict.format params = "jpeg" \/ Strict.format params = "webp")) /\
  type strict = Strict.format params /\
  omitsBackground permissive = false /\
  (forall x, quality permissive = Some x <->
     x = qualityNum /\ (format = "jpeg" \/ format = "webp")) /\
  type permissive = format.
Proof.
  cbn zeta. unfold Strict.screenshotOptions, Permissive.screenshotOptions, omitsBackground.
  cbn [omitBackground quality type].
  split; [apply String.eqb_eq |].
  split.
  { intros x. rewrite ifSome, arrayIncludes_In. cbn. intuition. }
  split; [reflexivity |].
  split; [reflexivity |].
  split; [| reflexivity].
  intros x. rewrite ifSome, orb_true_iff, !String.eqb_eq. intuition.
Qed.

(** *** Navigation *)

(** C6, as stated, fails on the permissive variant: when its only page load
    fails, no second attempt is made, and that load waits for near network
    idle alone, for 30 s. *)
Lemma C6_permissive_single_attempt :
  filter isGoto
    (Permissive.calls
       (Permissive.app
          (withGoto (Rejects "net::ERR_CONNECTION_RESET at https://example.com/")
                    Resolves allResolve)
          exampleQuery))
  = [Goto "https://example.com/" ["networkidle2"] 30000].
Proof. vm_compute. reflexivity. Qed.

(** C6, amended: in the strict variant the first load waits for
    DOM-content-loaded and near network idle, for 15 s; a second load,
    waiting for DOM-content-loaded alone for 10 s, is made exactly when the
    first fails, and when both fail the error of the second is the one
    thrown on.  In the permissive variant there is one load, waiting for
    near network idle for 30 s, whose error is thrown on. *)
Theorem C6_navigation (w : World) (url : string) (s : State) :
  Strict.navigate w url s =
    match gotoPrimary w, gotoFallback w with
    | Resolves, _ =>
        (Normal tt, after s [Goto url ["domcontentloaded"; "networkidle2"] 15000])
    | Rejects _, Resolves =>
        (Normal tt, after s [Goto url ["domcontentloaded"; "networkidle2"] 15000;
                             Goto url ["domcontentloaded"] 10000])
    | Rejects _, Rejects fallbackError =>
        (Throw fallbackError,
         after s [Goto url ["domcontentloaded"; "networkidle2"] 15000;
                  Goto url ["domcontentloaded"] 10000])
    end
  /\
  Permissive.navigate w url s =
    match gotoPrimary w with
    | Resolves => (Normal tt, after s [Goto url ["networkidle2"] 30000])
    | Rejects e => (Throw e, after s [Goto url ["networkidle2"] 30000])
    end.
Proof.
  unfold Strict.navigate, Permissive.navigate, after.
  destruct s as [b pg r t].
  split.
  - destruct (gotoPrimary w) as [| e1]; [reflexivity |].
    destruct (gotoFallback w) as [| e2]; unfold_M; rewrite <- app_assoc; reflexivity.
  - destruct (gotoPrimary w) as [| e]; reflexivity.
Qed.

(** *** Prefix parsing of the numeric parameters *)

(** C10, as stated, fails on a token with a hexadecimal prefix: the leading
    characters of [0xFFFF] form the integer 0, which is within the bounds
    of [delay], and are followed by text without a single decimal digit;
    but [parseInt] reads the token in base 16, as 65535, and the strict
    validator refuses it, in a request whose other parameters are valid. *)
Lemma C10_hexadecimal_token_refused :
  leadingInteger "0xFFFF" = Some 0 /\
  parseInt "0xFFFF" = Some 65535 /\
  Strict.validateParams_try exampleQuery
  = inr (Strict.mkParams (Some 1920) (Some 1080) (Some 80) (Some 0) "png"
           false false false) /\
  Strict.validateParams_try (<["delay" := "0xFFFF"]> exampleQuery)
  = inl "Delay must be between 0 and 5000 milliseconds".
Proof. repeat split; vm_compute; reflexivity. Qed.

(** C10, amended: a width, height, quality or delay token whose leading
    decimal digits form an integer within the bounds of its parameter, and
    which does not start with [0x] or [0X], is read as that integer whatever
    follows the digits; put in place of the parameter in a request that
    passes validation, it passes validation too, and the value kept for the
    capture is the truncated integer. *)
Theorem C10_prefix_parsing (token : string) (v : Z) :
  leadingInteger token = Some v -> hexPrefixed token = false ->
  parseInt token = Some v /\
  (forall q p, Strict.validateParams_try q = inr p ->
     (100 <= v <= 1920 ->
      Strict.validateParams_try (<["width" := token]> q)
      = inr (Strict.mkParams (Some v) (Strict.height p) (Strict.quality p)
               (Strict.delay p) (Strict.format p) (Strict.fullPage p)
               (Strict.mobile p) (Strict.darkMode p))) /\
     (100 <= v <= 1080 ->
      Strict.validateParams_try (<["height" := token]> q)
      = inr (Strict.mkParams (Strict.width p) (Some v) (Strict.quality p)
               (Strict.delay p) (Strict.format p) (Strict.fullPage p)
               (Strict.mobile p) (Strict.darkMode p))) /\
     (1 <= v <= 100 ->
      Strict.validateParams_try (<["quality" := token]> q)
      = inr (Strict.mkParams (Strict.width p) (Strict.height p) (Some v)
               (Strict.delay p) (Strict.format p) (Strict.fullPage p)
               (Strict.mobile p) (Strict.darkMode p))) /\
     (0 <= v <= 5000 ->
      Strict.validateParams_try (<["delay" := token]> q)
      = inr (Strict.mkParams (Strict.width p) (Strict.height p) (Strict.quality p)
               (Some v) (Strict.format p) (Strict.fullPage p)
               (Strict.mobile p) (Strict.darkMode p)))) /\
  (forall q s, Permissive.inputValidation q s = (Normal tt, s) ->
     (100 <= v <= 3840 ->
      Permissive.inputValidation (<["width" := token]> q) s = (Normal tt, s)) /\
     (100 <= v <= 2160 ->
      Permissive.inputValidation (<["height" := token]> q) s = (Normal tt, s)) /\
     (1 <= v <= 100 ->
      Permissive.inputValidation (<["quality" := token]> q) s = (Normal tt, s)) /\
     (0 <= v <= 10000 ->
      Permissive.inputValidation (<["delay" := token]> q) s = (Normal tt, s))).
Proof.
  intros Hv Hx.
  pose proof (parseInt_leadingInteger token v Hv Hx) as P.
  split; [exact P |]. split.
  - intros q p H. unfold Strict.validateParams_try in H. cbv zeta in H.
    repeat match type of H with
           | (if ?b then _ else _) = _ => destruct b eqn:?; [discriminate H |]
           end.
    injection H as <-.
    cbn [Strict.width Strict.height Strict.quality Strict.delay Strict.format
         Strict.fullPage Strict.mobile Strict.darkMode].
    repeat split; intros R; unfold Strict.validateParams_try; cbv zeta;
      rewrite ?field_insert_eq, ?field_insert_ne by discriminate;
      rewrite P, (not_outOfBounds _ _ _ R);
      repeat match goal with E : _ = false |- _ => rewrite E; clear E end;
      reflexivity.
  - intros q s H. apply inputValidation_passes in H.
    destruct H as (H1 & H2 & H3 & H4 & H5).
    repeat split; intros R; apply inputValidation_passes;
      rewrite ?field_insert_eq, ?field_insert_ne by discriminate;
      rewrite ?P, ?(inBounds _ _ _ R); auto.
Qed.

(** C10 at the width [800px], in a request with no other parameter than
    its URL. *)
Lemma C10_prefix_parsing_witness :
  parseInt "800px" = Some 800 /\
  Strict.validateParams_try (<["width" := "800px"]> exampleQuery)
  = inr (Strict.mkParams (Some 800) (Some 1080) (Some 80) (Some 0) "png"
           false false false) /\
  Permissive.inputValidation (<["width" := "800px"]> exampleQuery) initial
  = (Normal tt, initial).
Proof.
  destruct (C10_prefix_parsing "800px" 800 eq_refl eq_refl) as (P & S & L).
  split; [exact P |]. split.
  - destruct (S exampleQuery
                (Strict.mkParams (Some 1920) (Some 1080) (Some 80) (Some 0) "png"
                   false false false)) as (W & _).
    + vm_compute. reflexivity.
    + apply W. lia.
  - destruct (L exampleQuery initial) as (W & _).
    + vm_compute. reflexivity.
    + apply W. lia.
Defined.

(** *** The viewport of a validated request *)

(** When every browser call succeeds, the strict handler sets the viewport
    to the validated width and height. *)
Lemma strict_viewport (env : Env) (q : Query) (url : string) (p : Strict.Params) :
  Strict.validation env q = Next (Strict.mkRequest q (Some url) (Some p)) ->
  In (SetViewport (Strict.width p) (Strict.height p) (Strict.mobile p)
        (if Strict.mobile p then 2 else 1))
     (Strict.calls (Strict.app env allResolve q)).
Proof.
  intros V. unfold Strict.app. rewrite V. unfold Strict.handler.
  cbn [Strict.validatedParams Strict.validatedUrl Strict.query].
  destruct p as [wd ht ql [[| dl | dl] |] fmt fp mb []],
           (q !! "selector") as [[| c r] |];
    vm_compute; tauto.
Qed.

(** When every browser call succeeds, the permissive handler sets the
    viewport to the parsed width and height. *)
Lemma permissive_viewport (q : Query) (req : Permissive.Request) :
  Permissive.validateUrl (Permissive.mkRequest q None) = Next req ->
  Permissive.inputValidation q initial = (Normal tt, initial) ->
  In (SetViewport (parseInt (field q "width" "1920")) (parseInt (field q "height" "1080"))
        (String.eqb (field q "mobile" "false") "true")
        (if String.eqb (field q "mobile" "false") "true" then 2 else 1))
     (Permissive.calls (Permissive.app allResolve q)).
Proof.
  intros H I. unfold Permissive.app. rewrite H.
  apply permissive_validateUrl_Next in H.
  unfold Permissive.handler. rewrite H.
  unfold Permissive.handler_try, Permissive.handler_finally, Permissive.getBrowser,
    Permissive.navigate, Permissive.capture, Permissive.truthy.
  cbv zeta.
  cbn [allResolve launch newPage setViewport setUserAgent emulateMediaFeatures
       setRequestInterception gotoPrimary gotoFallback waitForTimeout evaluate
       waitForSelector querySelector elementScreenshot pageScreenshot pageClose
       browserClose timerFires default].
  fold initial.
  destruct (String.eqb (field _ "darkMode" "false") "true"),
           (gtNum (parseInt (field _ "delay" "0")) 0), (q !! "selector") as [[| c r] |];
    unfold_M; rewrite I; unfold initial; unfold_M;
    cbn [isEmpty negb Permissive.calls In app]; tauto.
Qed.

(** *** The selector parameter *)

Lemma strict_selector_reaches_browser (env : Env) (q : Query) (s : string)
    (req : Strict.Request) :
  Strict.validation env q = Next req ->
  In Launch (Strict.calls (Strict.app env allResolve (<["selector" := s]> q))) /\
  strictCaptureOf s (Strict.calls (Strict.app env allResolve (<["selector" := s]> q))).
Proof.
  intros H. apply validation_Next in H. destruct H as (url & p & -> & Hu & Hv & Hp).
  assert (E : Strict.validation env (<["selector" := s]> q)
              = Next (Strict.mkRequest (<["selector" := s]> q) (Some url) (Some p))).
  { unfold Strict.validation, Strict.validateUrl, Strict.validateParams.
    cbn [Strict.query]. rewrite lookup_insert_ne, Hu by discriminate.
    destruct url as [| c u]; [discriminate Hv |]. rewrite Hv.
    cbn [Strict.query Strict.validatedUrl Strict.validatedParams].
    now rewrite validateParams_try_selector, Hp. }
  unfold Strict.app. rewrite E.
  unfold Strict.handler. cbn [Strict.validatedParams Strict.validatedUrl Strict.query].
  rewrite lookup_insert_eq. unfold strictCaptureOf.
  destruct p as [wd ht ql [[| dl | dl] |] fmt fp mb []], s as [| c r]; vm_compute;
    (split; [left; reflexivity |]); repeat split; try eexists; tauto.
Qed.

Lemma permissive_selector_reaches_browser (q : Query) (s : string)
    (req : Permissive.Request) :
  Permissive.validateUrl (Permissive.mkRequest q None) = Next req ->
  Permissive.inputValidation q initial = (Normal tt, initial) ->
  In Launch (Permissive.calls (Permissive.app allResolve (<["selector" := s]> q))) /\
  permissiveCaptureOf s (Permissive.calls (Permissive.app allResolve (<["selector" := s]> q))).
Proof.
  intros H I. pose proof (permissive_validateUrl_selector q s) as V.
  rewrite H in V. unfold Permissive.app.
  destruct (Permissive.validateUrl (Permissive.mkRequest (<["selector" := s]> q) None))
    as [req' | res] eqn:E; [| discriminate V].
  apply permissive_validateUrl_Next in E.
  rewrite <- (inputValidation_selector q s) in I.
  unfold Permissive.handler. rewrite E.
  unfold Permissive.handler_try, Permissive.handler_finally, Permissive.getBrowser,
    Permissive.navigate, Permissive.capture, Permissive.truthy, permissiveCaptureOf.
  cbv zeta. rewrite lookup_insert_eq.
  cbn [allResolve launch newPage setViewport setUserAgent emulateMediaFeatures
       setRequestInterception gotoPrimary gotoFallback waitForTimeout evaluate
       waitForSelector querySelector elementScreenshot pageScreenshot pageClose
       browserClose timerFires default].
  fold initial.
  destruct (String.eqb (field _ "darkMode" "false") "true"),
           (gtNum (parseInt (field _ "delay" "0")) 0), s as [| c r];
    unfold_M; rewrite I; unfold initial; unfold_M;
    cbn [isEmpty negb Permissive.calls In app];
    (split; [left; reflexivity |]); repeat split; try eexists; tauto.
Qed.

(** C9: no validator reads the [selector] parameter.  Adding any string as
    selector to a request leaves the verdict of the strict validators, of
    the permissive URL validator and of the permissive input validation
    unchanged; and when the request passes them, the handler launches the
    browser and hands the selector, as received, to the capture stage
    ([waitForSelector] and [page.$] in the strict variant, [page.$] in the
    permissive one), an empty selector being taken as absent by the
    handler's own truthiness test. *)
Theorem C9_selector_unchecked (env : Env) (q : Query) (s : string) :
  strictVerdict (Strict.validation env (<["selector" := s]> q))
  = strictVerdict (Strict.validation env q)
  /\
  permissiveVerdict
    (Permissive.validateUrl (Permissive.mkRequest (<["selector" := s]> q) None))
  = permissiveVerdict (Permissive.validateUrl (Permissive.mkRequest q None))
  /\
  Permissive.inputValidation (<["selector" := s]> q) = Permissive.inputValidation q
  /\
  (forall req, Strict.validation env q = Next req ->
     In Launch (Strict.calls (Strict.app env allResolve (<["selector" := s]> q))) /\
     strictCaptureOf s
       (Strict.calls (Strict.app env allResolve (<["selector" := s]> q))))
  /\
  (forall req, Permissive.validateUrl (Permissive.mkRequest q None) = Next req ->
     Permissive.inputValidation q initial = (Normal tt, initial) ->
     In Launch (Permissive.calls (Permissive.app allResolve (<["selector" := s]> q))) /\
     permissiveCaptureOf s
       (Permissive.calls (Permissive.app allResolve (<["selector" := s]> q)))).
Proof.
  split; [apply strict_validation_selector |].
  split; [apply permissive_validateUrl_selector |].
  split; [apply inputValidation_selector |].
  split.
  - intros req. apply strict_selector_reaches_browser.
  - intros req. apply permissive_selector_reaches_browser.
Qed.

(** C9 at the selector [div[], which is not a well-formed CSS selector: the
    handlers pass it to the browser. *)
Lemma C9_selector_unchecked_witness :
  In (WaitForSelector "div[" 5000)
     (Strict.calls (Strict.app production allResolve (<["selector" := "div["]> exampleQuery)))
  /\
  In (QuerySelector "div[")
     (Permissive.calls (Permissive.app allResolve (<["selector" := "div["]> exampleQuery))).
Proof.
  destruct (C9_selector_unchecked production exampleQuery "div[") as (_ & _ & _ & S & P).
  split.
  - destruct (S (Strict.mkRequest exampleQuery (Some "https://example.com/")
                   (Some (Strict.mkParams (Some 1920) (Some 1080) (Some 80) (Some 0)
                            "png" false false false)))) as (_ & C).
    + vm_compute. reflexivity.
    + exact (proj1 C).
  - destruct (P (Permissive.mkRequest exampleQuery (Some "https://example.com/")))
      as (_ & C).
    + vm_compute. reflexivity.
    + vm_compute. reflexivity.
    + exact (proj1 C).
Defined.

(** *** Capture of an element *)

(** C2: with [selector=.does-not-exist] on a page that loads, no variant
    answers 400.  The strict handler fails in [waitForSelector], whose
    timeout error, once wrapped, is classified as 408 when its text
    contains [timeout] and as 500 when it does not (both wordings occur
    among puppeteer releases); the permissive handler throws its
    element-not-found error and classifies it as 500. *)
Theorem C2_missing_element_status :
  option_map statusCode
    (Strict.sent
       (Strict.app production
          (withoutElement
             "Waiting for selector `.does-not-exist` failed: Waiting failed: 5000ms exceeded"
             allResolve)
          (<["selector" := ".does-not-exist"]> exampleQuery)))
  = Some 500
  /\
  option_map statusCode
    (Strict.sent
       (Strict.app production
          (withoutElement
             "waiting for selector `.does-not-exist` failed: timeout 5000ms exceeded"
             allResolve)
          (<["selector" := ".does-not-exist"]> exampleQuery)))
  = Some 408
  /\
  Permissive.sent
    (Permissive.app (withoutElement "unused" allResolve)
       (<["selector" := ".does-not-exist"]> exampleQuery))
  = Some (Json 500 "Failed to capture screenshot"
       (Some ("Element with selector " +:+ dquote +:+ ".does-not-exist" +:+ dquote
              +:+ " not found"))).
Proof. repeat split; vm_compute; reflexivity. Qed.

(** *** Bounds of the numeric parameters *)

(** The permissive input validation lets through a numeric parameter that
    does not parse: [NaN] is neither below the lower bound nor above the
    upper one. *)
Lemma permissive_unparsable_number_passes (q : Query) (s : State) (token : string) :
  parseInt token = None ->
  Permissive.inputValidation q s = (Normal tt, s) ->
  Permissive.inputValidation (<["width" := token]> q) s = (Normal tt, s) /\
  Permissive.inputValidation (<["height" := token]> q) s = (Normal tt, s) /\
  Permissive.inputValidation (<["quality" := token]> q) s = (Normal tt, s) /\
  Permissive.inputValidation (<["delay" := token]> q) s = (Normal tt, s).
Proof.
  intros P H. apply inputValidation_passes in H.
  destruct H as (H1 & H2 & H3 & H4 & H5).
  repeat split; apply inputValidation_passes;
    rewrite ?field_insert_eq, ?field_insert_ne by discriminate;
    rewrite ?P; auto.
Qed.

(** C3: in the permissive variant a width that does not parse as an
    integer passes the bounds checks, because both comparisons with [NaN]
    are false: the request is not refused with a 400 and a browser is
    launched, whether the browser then accepts the [NaN] width or rejects
    it in [setViewport]. *)
Theorem C3_permissive_unparsable_width_launches :
  parseInt "abc" = None /\
  Permissive.app allResolve (<["width" := "abc"]> exampleQuery)
  = Permissive.mkRun
      (Some (Image "png" None (Some 1080)))
      [Launch; BrowserUp; NewPage;
       SetViewport None (Some 1080) false 1;
       SetUserAgent Permissive.desktopUserAgent;
       Goto "https://example.com/" ["networkidle2"] 30000;
       PageScreenshot (mkOptions "png" false None None ClipUndefined None);
       BrowserClose]
  /\
  Permissive.app
    (withSetViewport (Rejects "Protocol error (Emulation.setDeviceMetricsOverride)")
       allResolve)
    (<["width" := "abc"]> exampleQuery)
  = Permissive.mkRun
      (Some (Json 500 "Failed to capture screenshot"
               (Some "Protocol error (Emulation.setDeviceMetricsOverride)")))
      [Launch; BrowserUp; NewPage; SetViewport None (Some 1080) false 1; BrowserClose].
Proof. repeat split; vm_compute; reflexivity. Qed.

(** *** The browser session *)

Section Quiet.
Variable p : Event -> bool.

Lemma count_snoc (t : list Event) (e : Event) :
  count p (t ++ [e]) = (count p t + (if p e then 1 else 0))%nat.
Proof.
  unfold count. rewrite List.filter_app, List.length_app. cbn.
  destruct (p e); reflexivity.
Qed.

Lemma quiet_ret {A : Type} (a : A) : quiet p (mret a).
Proof. intros s. split; reflexivity. Qed.

Lemma quiet_throw {A : Type} (e : string) : quiet p (@throw A e).
Proof. intros s. split; reflexivity. Qed.

Lemma quiet_return {A : Type} : quiet p (@return_ A).
Proof. intros s. split; reflexivity. Qed.

Lemma quiet_getState : quiet p getState.
Proof. intros s. split; reflexivity. Qed.

Lemma quiet_setPage : quiet p setPage.
Proof. intros s. split; reflexivity. Qed.

Lemma quiet_send (r : Response) : quiet p (send r).
Proof. intros s. unfold send. destruct (response s); split; reflexivity. Qed.

Lemma quiet_emit (e : Event) : p e = false -> quiet p (emit e).
Proof.
  intros H s. unfold emit. cbn [snd trace browser].
  rewrite count_snoc, H. split; [lia | reflexivity].
Qed.

Lemma quiet_bind {A B : Type} (m : M A) (k : A -> M B) :
  quiet p m -> (forall a, quiet p (k a)) -> quiet p (m ≫= k).
Proof.
  intros Hm Hk s. unfold mbind, M_bind.
  destruct (Hm s) as [C B0]. destruct (m s) as [[a | e |] s']; cbn [snd] in *.
  - destruct (Hk a s') as [C' B']. split; congruence.
  - split; assumption.
  - split; assumption.
Qed.

Lemma quiet_await (o : Outcome) : quiet p (await o).
Proof. destruct o; [apply quiet_ret | apply quiet_throw]. Qed.

Lemma quiet_call (e : Event) (o : Outcome) : p e = false -> quiet p (call e o).
Proof.
  intros H. unfold call. apply quiet_bind; [now apply quiet_emit |].
  intros _. apply quiet_await.
Qed.

Lemma quiet_when (b : bool) (m : M unit) : quiet p m -> quiet p (when b m).
Proof. destruct b; [trivial | intros _; apply quiet_ret]. Qed.

Lemma quiet_tryCatch {A : Type} (m : M A) (h : string -> M A) :
  quiet p m -> (forall e, quiet p (h e)) -> quiet p (tryCatch m h).
Proof.
  intros Hm Hh s. unfold tryCatch.
  destruct (Hm s) as [C B0]. destruct (m s) as [[a | e |] s']; cbn [snd] in *.
  - split; assumption.
  - destruct (Hh e s') as [C' B']. split; congruence.
  - split; assumption.
Qed.

Lemma quiet_tryFinally {A : Type} (m : M A) (f : M unit) :
  quiet p m -> quiet p f -> quiet p (tryFinally m f).
Proof.
  intros Hm Hf s. unfold tryFinally.
  destruct (Hm s) as [C B0]. destruct (m s) as [c s']. cbn [snd] in *.
  destruct (Hf s') as [C' B']. destruct (f s') as [[a | e |] s'']; cbn [snd] in *;
    split; congruence.
Qed.
End Quiet.

Lemma count_app (p : Event -> bool) (t u : list Event) :
  count p (t ++ u) = (count p t + count p u)%nat.
Proof. unfold count. now rewrite List.filter_app, List.length_app. Qed.

Lemma bind_run {A B : Type} (m : M A) (k : A -> M B) (s : State) :
  (m ≫= k) s =
  match m s with
  | (Normal a, s') => k a s'
  | (Throw e, s') => (Throw e, s')
  | (Return, s') => (Return, s')
  end.
Proof. reflexivity. Qed.

Lemma sessionKind_isLaunch : sessionKind isLaunch.
Proof. intros [] H; try reflexivity; discriminate H. Qed.

Lemma sessionKind_isBrowserUp : sessionKind isBrowserUp.
Proof. intros [] H; try reflexivity; discriminate H. Qed.

Lemma sessionKind_isBrowserClose : sessionKind isBrowserClose.
Proof. intros [] H; try reflexivity; discriminate H. Qed.

Ltac quiet_step H :=
  first
    [ apply quiet_ret | apply quiet_throw | apply quiet_return | apply quiet_getState
    | apply quiet_setPage | apply quiet_send | apply quiet_await
    | apply quiet_call; [apply H; reflexivity]
    | apply quiet_emit; [apply H; reflexivity]
    | apply quiet_when
    | apply quiet_bind; [| intros ?]
    | apply quiet_tryCatch; [| intros ?]
    | match goal with |- quiet _ (match ?x with _ => _ end) => destruct x end ].

(** Past the launch race, the [try] block of the strict handler neither
    launches nor closes a browser: the session counts and the [browser]
    local are those the race left. *)
Lemma strict_handler_try_session (p : Event -> bool) (w : World) (url : string)
    (params : Strict.Params) (selector : option string) (s : State) :
  sessionKind p ->
  count p (trace (Strict.handler_try w url params selector s).2)
  = count p (trace (Strict.launchRace w s).2) /\
  browser (Strict.handler_try w url params selector s).2
  = browser (Strict.launchRace w s).2.
Proof.
  intros H. unfold Strict.handler_try. rewrite bind_run.
  destruct (Strict.launchRace w s) as [[[] | e |] s']; cbn [snd]; try (split; reflexivity).
  match goal with |- count p (trace (?m s').2) = _ /\ _ =>
    assert (Q : quiet p m); [| exact (Q s')]
  end.
  unfold Strict.navigate, Strict.capture.
  repeat quiet_step H.
Qed.

Lemma strict_handler_catch_quiet (p : Event -> bool) (message : string) :
  quiet p (Strict.handler_catch message).
Proof.
  unfold Strict.handler_catch. destruct (Strict.classify message) as [code errorMessage].
  apply quiet_bind; [apply quiet_getState | intros s].
  apply quiet_when, quiet_send.
Qed.

Lemma launchRace_run (w : World) (s : State) :
  Strict.launchRace w s =
  match launch w with
  | Launched =>
      (Normal tt, mkState true (page s) (response s) (trace s ++ [Launch; BrowserUp]))
  | LaunchFails e => (Throw e, after s [Launch])
  | LaunchedLate | LaunchFailsLate _ => (Throw "Browser launch timeout", after s [Launch])
  end.
Proof.
  unfold Strict.launchRace, after. destruct s as [b pg r t].
  destruct (launch w); unfold_M; rewrite <- ?app_assoc; reflexivity.
Qed.

Lemma strict_try_catch_session (p : Event -> bool) (w : World) (url : string)
    (params : Strict.Params) (selector : option string) (s : State) :
  sessionKind p ->
  count p (trace (tryCatch (Strict.handler_try w url params selector)
                    Strict.handler_catch s).2)
  = count p (trace (Strict.launchRace w s).2) /\
  browser (tryCatch (Strict.handler_try w url params selector)
             Strict.handler_catch s).2
  = browser (Strict.launchRace w s).2.
Proof.
  intros H. destruct (strict_handler_try_session p w url params selector s H) as [C B].
  unfold tryCatch.
  destruct (Strict.handler_try w url params selector s) as [[[] | e |] s'];
    cbn [snd] in *; try (split; assumption).
  destruct (strict_handler_catch_quiet p e s') as [C' B']. split; congruence.
Qed.

(** The cleanup makes no launch; it calls [browser.close()] once when the
    handler holds a browser, unless [page.close()] was called and
    rejected. *)
Lemma strict_handler_finally_session (w : World) (s : State) :
  count isLaunch (trace (Strict.handler_finally w s).2) = count isLaunch (trace s) /\
  count isBrowserUp (trace (Strict.handler_finally w s).2) = count isBrowserUp (trace s) /\
  count isBrowserClose (trace (Strict.handler_finally w s).2)
  = (count isBrowserClose (trace s)
     + if browser s && (negb (page s) || resolves (pageClose w)) then 1 else 0)%nat.
Proof.
  unfold Strict.handler_finally. destruct s as [[] [] r t];
    destruct (pageClose w), (browserClose w); unfold_M; cbn [andb orb negb resolves];
    rewrite ?count_snoc; cbn; repeat split; lia.
Qed.

Theorem strict_session_accounting (env : Env) (w : World) (q : Query)
    (req : Strict.Request) :
  Strict.validation env q = Next req ->
  count isLaunch (Strict.calls (Strict.app env w q)) = 1%nat /\
  count isBrowserUp (Strict.calls (Strict.app env w q))
  = match launch w with Launched | LaunchedLate => 1%nat | _ => 0%nat end /\
  (count isBrowserClose (Strict.calls (Strict.app env w q)) <= 1)%nat /\
  (launch w = Launched -> pageClose w = Resolves ->
   count isBrowserClose (Strict.calls (Strict.app env w q)) = 1%nat) /\
  (launch w <> Launched ->
   count isBrowserClose (Strict.calls (Strict.app env w q)) = 0%nat).
Proof.
  intros V. unfold Strict.app. rewrite V.
  apply validation_Next in V. destruct V as (url & p & -> & _).
  unfold Strict.handler.
  cbn [Strict.validatedParams Strict.validatedUrl Strict.query default].
  set (s0 := mkState false false _ []).
  unfold tryFinally.
  pose proof (strict_try_catch_session isLaunch w url p (q !! "selector") s0
                sessionKind_isLaunch) as [L _].
  pose proof (strict_try_catch_session isBrowserUp w url p (q !! "selector") s0
                sessionKind_isBrowserUp) as [U _].
  pose proof (strict_try_catch_session isBrowserClose w url p (q !! "selector") s0
                sessionKind_isBrowserClose) as [C B].
  destruct (tryCatch _ _ s0) as [c1 s1]. cbn [snd] in *.
  pose proof (strict_handler_finally_session w s1) as (FL & FU & FC).
  assert (E : forall c, Strict.calls
            (let '(_, s) := (let '(c0, s') := (c : Completion unit * State) in
                             match Strict.handler_finally w s' with
                             | (Normal _, s'') => (c0, s'')
                             | (Throw e, s'') => (Throw e, s'')
                             | (Return, s'') => (Return, s'')
                             end) in
             Strict.mkRun (response s)
               (trace s ++ match launch w with LaunchedLate => [BrowserUp] | _ => [] end))
          = (trace (Strict.handler_finally w c.2).2
             ++ match launch w with LaunchedLate => [BrowserUp] | _ => [] end)%list).
  { intros [c0 s']. cbn [snd]. destruct (Strict.handler_finally w s') as [[a | e |] s''];
      reflexivity. }
  rewrite (E (c1, s1)). cbn [snd]. clear E.
  rewrite !count_app.
  rewrite FL, FU, FC, L, U, C, B, launchRace_run. subst s0.
  destruct (launch w) as [| e | | e]; cbn [snd trace browser after andb app];
    cbn [count List.filter isLaunch isBrowserUp isBrowserClose List.length];
    (repeat split; try lia; try congruence).
  - destruct (negb (page s1) || resolves (pageClose w)); lia.
  - intros _ ->. cbn [resolves]. rewrite orb_true_r. lia.
Qed.

(** Whatever else happens, a launch that loses the launch race to the
    timer and then succeeds leaves its browser running. *)
Corollary late_launch_always_leaks (env : Env) (w : World) (q : Query)
    (req : Strict.Request) :
  Strict.validation env q = Next req ->
  launch w = LaunchedLate ->
  leaksBrowser (Strict.calls (Strict.app env w q)) = true.
Proof.
  intros V L.
  destruct (strict_session_accounting env w q req V) as (_ & U & _ & _ & C).
  unfold leaksBrowser. rewrite U, C, L by (rewrite L; discriminate). reflexivity.
Qed.

(** When [page.close()] rejects, the cleanup skips [browser.close()]: the
    rejection is caught by the cleanup's own [catch], after the response
    was sent. *)
Lemma page_close_rejection_skips_browser_close :
  Strict.app production
    (withPageClose (Rejects "Protocol error (Target.closeTarget): Target closed")
       allResolve)
    exampleQuery
  = Strict.mkRun
      (Some (Image "png" (Some 1920) (Some 1080)))
      [Launch; BrowserUp; NewPage;
       SetViewport (Some 1920) (Some 1080) false 1;
       SetUserAgent Strict.desktopUserAgent;
       SetRequestInterception;
       Goto "https://example.com/" ["domcontentloaded"; "networkidle2"] 15000;
       Evaluate;
       PageScreenshot (mkOptions "png" false (Some true) (Some false) ClipNull None);
       PageClose].
Proof. vm_compute. reflexivity. Qed.

(** C1: when the launch settles after the 10 s timer of the launch race,
    the handler answers 408 and its cleanup closes nothing, because its
    [browser] local is still [null]; the launch then completes, and the
    browser it started is never closed. *)
Theorem C1_late_launch_leaks_browser :
  Strict.app production (withLaunch LaunchedLate allResolve) exampleQuery
  = Strict.mkRun
      (Some (Json 408 "Website took too long to load" (Some "Browser launch timeout")))
      [Launch; BrowserUp]
  /\
  leaksBrowser
    (Strict.calls (Strict.app production (withLaunch LaunchedLate allResolve) exampleQuery))
  = true.
Proof. split; vm_compute; reflexivity. Qed.

(** ** Further properties *)

(** *** What the strict validator guarantees *)

Lemma inBounds_inv (n : Num) (lo hi : Z) :
  isNaN n || ltNum n lo || gtNum n hi = false ->
  exists v, n = Some v /\ lo <= v <= hi.
Proof.
  destruct n as [v |]; cbn; [| discriminate].
  intros H. apply orb_false_iff in H. destruct H as [H1 H2].
  apply Z.ltb_ge in H1. apply Z.ltb_ge in H2. exists v. split; [reflexivity | lia].
Qed.

(** X1: the parameters the strict validator stores are integers within the
    documented bounds, a lower-case format among the three supported, and
    flags read from [true] or [false]. *)
Theorem validated_params_in_bounds (q : Query) (p : Strict.Params) :
  Strict.validateParams_try q = inr p ->
  (exists w, Strict.width p = Some w /\ 100 <= w <= 1920) /\
  (exists h, Strict.height p = Some h /\ 100 <= h <= 1080) /\
  (exists ql, Strict.quality p = Some ql /\ 1 <= ql <= 100) /\
  (exists d, Strict.delay p = Some d /\ 0 <= d <= 5000) /\
  In (Strict.format p) ["png"; "jpeg"; "webp"] /\
  Strict.format p = toLowerCase (field q "format" "png") /\
  In (toLowerCase (field q "fullPage" "false")) ["true"; "false"] /\
  In (toLowerCase (field q "mobile" "false")) ["true"; "false"] /\
  In (toLowerCase (field q "darkMode" "false")) ["true"; "false"].
Proof.
  intros H. unfold Strict.validateParams_try in H. cbv zeta in H.
  repeat match type of H with
         | (if ?b then _ else _) = _ => destruct b eqn:?; [discriminate H |]
         end.
  injection H as <-.
  cbn [Strict.width Strict.height Strict.quality Strict.delay Strict.format].
  repeat match goal with
         | E : negb _ = false |- _ => apply negb_false_iff, arrayIncludes_In in E
         | E : isNaN _ || _ || _ = false |- _ => apply inBounds_inv in E
         end.
  repeat split; assumption.
Qed.

Lemma validated_params_in_bounds_witness :
  exists w, Some 800 = Some w /\ 100 <= w <= 1920.
Proof.
  destruct (validated_params_in_bounds
              (<["width" := "800"]> (<["format" := "JPEG"]> exampleQuery))
              (Strict.mkParams (Some 800) (Some 1080) (Some 80) (Some 0) "jpeg"
                 false false false))
    as (W & _).
  - vm_compute. reflexivity.
  - exact W.
Defined.

(** *** What a request is read through *)

(** Both variants read a query through its [url] and [selector] entries
    and through the eight defaulted fields, and through nothing else. *)
Lemma strict_validateParams_try_ext (q q' : Query) :
  (forall k d, In (k, d) defaults -> field q k d = field q' k d) ->
  Strict.validateParams_try q = Strict.validateParams_try q'.
Proof.
  intros F. unfold Strict.validateParams_try.
  rewrite (F "width" "1920"), (F "height" "1080"), (F "quality" "80"),
    (F "delay" "0"), (F "format" "png"), (F "fullPage" "false"),
    (F "mobile" "false"), (F "darkMode" "false") by (cbn; tauto).
  reflexivity.
Qed.

Lemma strict_app_same_params (env : Env) (w : World) (q q' : Query) :
  q !! "url" = q' !! "url" ->
  q !! "selector" = q' !! "selector" ->
  Strict.validateParams_try q = Strict.validateParams_try q' ->
  Strict.app env w q = Strict.app env w q'.
Proof.
  intros U S P.
  unfold Strict.app, Strict.validation, Strict.validateUrl, Strict.validateParams.
  cbn [Strict.query]. rewrite <- U.
  destruct (q !! "url") as [[| c u] |]; try reflexivity.
  destruct (Strict.validateUrl_try env (String c u)); [reflexivity |].
  cbn [Strict.query Strict.validatedUrl].
  rewrite <- P.
  destruct (Strict.validateParams_try q) as [message | p]; [reflexivity |].
  unfold Strict.handler.
  cbn [Strict.query Strict.validatedUrl Strict.validatedParams].
  rewrite <- S. reflexivity.
Qed.

Lemma strict_app_ext (env : Env) (w : World) (q q' : Query) :
  q !! "url" = q' !! "url" ->
  q !! "selector" = q' !! "selector" ->
  (forall k d, In (k, d) defaults -> field q k d = field q' k d) ->
  Strict.app env w q = Strict.app env w q'.
Proof.
  intros U S F. apply strict_app_same_params; try assumption.
  now apply strict_validateParams_try_ext.
Qed.

Lemma permissive_app_ext (w : World) (q q' : Query) :
  q !! "url" = q' !! "url" ->
  q !! "selector" = q' !! "selector" ->
  (forall k d, In (k, d) defaults -> field q k d = field q' k d) ->
  Permissive.app w q = Permissive.app w q'.
Proof.
  intros U S F.
  unfold Permissive.app, Permissive.validateUrl, Permissive.handler,
    Permissive.handler_try, Permissive.inputValidation.
  cbn [Permissive.query]. rewrite <- U.
  destruct (q !! "url") as [[| c u] |] eqn:E; try reflexivity.
  destruct (URL_new (String c u)); [| reflexivity].
  destruct (negb _); [reflexivity |].
  cbn [Permissive.query]. rewrite <- ?U, ?E, <- S.
  rewrite <- (F "width" "1920"), <- (F "height" "1080"), <- (F "quality" "80"),
    <- (F "delay" "0"), <- (F "format" "png"), <- (F "fullPage" "false"),
    <- (F "mobile" "false"), <- (F "darkMode" "false") by (cbn; tauto).
  reflexivity.
Qed.

(** X2: a parameter given with its default value is the same request as
    one without the parameter: same response, same browser calls, in every
    world and in both variants. *)
Theorem explicit_default_is_omission (env : Env) (w : World) (q : Query)
    (k d : string) :
  In (k, d) defaults ->
  q !! k = None ->
  Strict.app env w (<[k := d]> q) = Strict.app env w q /\
  Permissive.app w (<[k := d]> q) = Permissive.app w q.
Proof.
  intros D N.
  assert (U : <[k := d]> q !! "url" = q !! "url")
    by (apply lookup_insert_ne; intros ->; cbn in D; intuition discriminate).
  assert (S : <[k := d]> q !! "selector" = q !! "selector")
    by (apply lookup_insert_ne; intros ->; cbn in D; intuition discriminate).
  assert (F : forall k' d', In (k', d') defaults ->
                field (<[k := d]> q) k' d' = field q k' d').
  { intros k' d' D'. unfold field. destruct (decide (k = k')) as [<- | Hne].
    - rewrite lookup_insert_eq, N. cbn.
      cbn in D, D'.
      repeat match goal with H : _ \/ _ |- _ => destruct H end;
        try contradiction; congruence.
    - now rewrite lookup_insert_ne. }
  split; [now apply strict_app_ext | now apply permissive_app_ext].
Qed.

Lemma explicit_default_is_omission_witness :
  Strict.app production allResolve (<["width" := "1920"]> exampleQuery)
  = Strict.app production allResolve exampleQuery.
Proof.
  apply (explicit_default_is_omission production allResolve exampleQuery "width" "1920").
  - cbn. tauto.
  - vm_compute. reflexivity.
Defined.

(** X3: a query parameter that is not one of the ten the handlers name is
    ignored: same response, same browser calls, in every world and in both
    variants. *)
Theorem unknown_parameter_ignored (env : Env) (w : World) (q : Query)
    (k v : string) :
  k <> "url" -> k <> "selector" -> (forall d, ~ In (k, d) defaults) ->
  Strict.app env w (<[k := v]> q) = Strict.app env w q /\
  Permissive.app w (<[k := v]> q) = Permissive.app w q.
Proof.
  intros U S D.
  assert (F : forall k' d', In (k', d') defaults ->
                field (<[k := v]> q) k' d' = field q k' d').
  { intros k' d' D'. apply field_insert_ne. intros <-. exact (D d' D'). }
  split; [apply strict_app_ext | apply permissive_app_ext];
    try exact F; now apply lookup_insert_ne.
Qed.

Lemma unknown_parameter_ignored_witness :
  Strict.app production allResolve (<["callback" := "x"]> exampleQuery)
  = Strict.app production allResolve exampleQuery.
Proof.
  apply (unknown_parameter_ignored production allResolve exampleQuery "callback" "x");
    try discriminate.
  intros d D. cbn in D. intuition discriminate.
Defined.

(** *** Letter case and the boolean flags *)

Lemma lowerChar_idempotent (c : ascii) : lowerChar (lowerChar c) = lowerChar c.
Proof. destruct c as [[] [] [] [] [] [] [] []]; vm_compute; reflexivity. Qed.

Lemma toLowerCase_idempotent (s : string) : toLowerCase (toLowerCase s) = toLowerCase s.
Proof.
  induction s as [| c r IH]; cbn [toLowerCase]; [reflexivity |].
  now rewrite lowerChar_idempotent, IH.
Qed.

(** X4: the strict variant reads [format] and the three flags without
    regard to letter case: a request and the same request with one of them
    lower-cased get the same response and the same browser calls. *)
Theorem strict_letter_case_ignored (env : Env) (w : World) (q : Query) (v : string) :
  Strict.app env w (<["format" := v]> q)
  = Strict.app env w (<["format" := toLowerCase v]> q) /\
  Strict.app env w (<["fullPage" := v]> q)
  = Strict.app env w (<["fullPage" := toLowerCase v]> q) /\
  Strict.app env w (<["mobile" := v]> q)
  = Strict.app env w (<["mobile" := toLowerCase v]> q) /\
  Strict.app env w (<["darkMode" := v]> q)
  = Strict.app env w (<["darkMode" := toLowerCase v]> q).
Proof.
  repeat split; apply strict_app_same_params;
    rewrite ?lookup_insert_ne by discriminate; try reflexivity;
    unfold Strict.validateParams_try;
    rewrite ?field_insert_eq, ?field_insert_ne by discriminate;
    rewrite ?toLowerCase_idempotent; reflexivity.
Qed.

(** X5: the strict variant refuses a flag that is neither [true] nor
    [false], whatever the rest of the request. *)
Theorem strict_flag_must_be_boolean (q : Query) (k v : string) :
  In k flags ->
  ~ In (toLowerCase v) ["true"; "false"] ->
  exists message, Strict.validateParams_try (<[k := v]> q) = inl message.
Proof.
  intros K V.
  assert (B : negb (arrayIncludes ["true"; "false"] (toLowerCase v)) = true).
  { apply negb_true_iff. destruct (arrayIncludes _ _) eqn:E; [| reflexivity].
    apply arrayIncludes_In in E. contradiction. }
  cbn in K. destruct K as [<- | [<- | [<- | []]]];
    unfold Strict.validateParams_try; cbv zeta;
    rewrite ?field_insert_eq, ?field_insert_ne by discriminate; rewrite B;
    repeat match goal with
           | |- context [if ?b then _ else _] => destruct b; eauto
           end.
Qed.

Lemma strict_flag_must_be_boolean_witness :
  exists message,
    Strict.validateParams_try (<["mobile" := "yes"]> exampleQuery) = inl message.
Proof.
  apply (strict_flag_must_be_boolean exampleQuery "mobile" "yes").
  - cbn. tauto.
  - cbn. intuition discriminate.
Defined.

(** X6: the permissive variant never refuses a flag; every value other
    than the exact text [true] acts as [false]. *)
Theorem permissive_flag_defaults_to_false (w : World) (q : Query) (k v : string) :
  In k flags ->
  v <> "true" ->
  Permissive.app w (<[k := v]> q) = Permissive.app w (<[k := "false"]> q).
Proof.
  intros K V. apply String.eqb_neq in V.
  unfold Permissive.app, Permissive.validateUrl. cbn [Permissive.query].
  cbn in K. destruct K as [<- | [<- | [<- | []]]];
    rewrite !lookup_insert_ne by discriminate;
    (destruct (q !! "url") as [[| c u] |]; try reflexivity;
     destruct (URL_new (String c u)); [| reflexivity];
     destruct (negb _); [reflexivity |]);
    unfold Permissive.handler, Permissive.handler_try, Permissive.inputValidation,
      Permissive.screenshotOptions;
    cbn [Permissive.query]; cbv zeta;
    rewrite ?field_insert_eq, ?field_insert_ne, ?lookup_insert_ne by discriminate;
    rewrite ?V; reflexivity.
Qed.

Lemma permissive_flag_defaults_to_false_witness :
  Permissive.app allResolve (<["mobile" := "TRUE"]> exampleQuery)
  = Permissive.app allResolve (<["mobile" := "false"]> exampleQuery).
Proof.
  apply (permissive_flag_defaults_to_false allResolve exampleQuery "mobile" "TRUE").
  - cbn. tauto.
  - discriminate.
Defined.

(** *** More on URL validation *)

(** X7: a request the strict URL validator passes on has a non-empty [url]
    parameter, stored unchanged as the validated URL, which parses with
    protocol [http:] or [https:], contains none of the suspicious patterns
    in any letter case, and, in production, has a host the private-address
    pattern does not match. *)
Theorem strict_accepted_url (env : Env) (req req' : Strict.Request) :
  Strict.validateUrl env req = Next req' ->
  exists url u,
    Strict.query req !! "url" = Some url /\ url <> EmptyString /\
    req' = Strict.mkRequest (Strict.query req) (Some url) (Strict.validatedParams req) /\
    URL_new url = Some u /\
    (protocol u = "http:" \/ protocol u = "https:") /\
    (isProductionEnv env = true ->
     Strict.privateIpRegex (toLowerCase (hostname u)) = false) /\
    (forall pattern, In pattern Strict.suspiciousPatterns ->
                     testIgnoreCase pattern url = false).
Proof.
  unfold Strict.validateUrl.
  destruct (Strict.query req !! "url") as [[| c r] |]; try discriminate.
  unfold Strict.validateUrl_try.
  destruct (URL_new (String c r)) as [u |] eqn:U; [| discriminate].
  destruct (negb (arrayIncludes _ (protocol u))) eqn:P; [discriminate |].
  destruct (isProductionEnv env && _) eqn:H; [discriminate |].
  destruct (existsb _ Strict.suspiciousPatterns) eqn:S; [discriminate |].
  intros [= <-]. exists (String c r), u.
  apply negb_false_iff, arrayIncludes_In in P. cbn in P.
  split; [reflexivity |]. split; [discriminate |]. split; [reflexivity |].
  split; [exact U |].
  split; [destruct P as [P | [P | []]]; auto |]. split.
  - intros E. rewrite E in H. exact H.
  - intros pattern I. destruct (testIgnoreCase pattern (String c r)) eqn:T; [| reflexivity].
    assert (existsb (fun pattern => testIgnoreCase pattern (String c r))
              Strict.suspiciousPatterns = true)
      by (apply existsb_exists; eauto).
    congruence.
Qed.

Lemma strict_accepted_url_witness :
  exists url u,
    ({[ "url" := "https://example.com/" ]} : Query) !! "url" = Some url /\
    url <> EmptyString /\
    URL_new url = Some u /\ (protocol u = "http:" \/ protocol u = "https:").
Proof.
  destruct (strict_accepted_url production
              (Strict.mkRequest exampleQuery None None)
              (Strict.mkRequest exampleQuery (Some "https://example.com/") None))
    as (url & u & A & B & _ & C & D & _).
  - vm_compute. reflexivity.
  - exists url, u. auto.
Defined.

(** X8: the profiles are ordered.  A URL the strict validator accepts in
    some environment is accepted outside production with the same result,
    and is accepted by the permissive variant's validator. *)
Theorem url_acceptance_is_monotone (env : Env) (q : Query) (req' : Strict.Request) :
  Strict.validateUrl env (Strict.mkRequest q None None) = Next req' ->
  Strict.validateUrl development (Strict.mkRequest q None None) = Next req' /\
  Permissive.validateUrl (Permissive.mkRequest q None)
  = Next (Permissive.mkRequest q (Strict.validatedUrl req')).
Proof.
  unfold Strict.validateUrl, Strict.validateUrl_try, Permissive.validateUrl.
  cbn [Strict.query Strict.validatedParams Permissive.query].
  destruct (q !! "url") as [[| c r] |]; try discriminate.
  destruct (URL_new (String c r)) as [u |]; [| discriminate].
  destruct (negb (arrayIncludes _ (protocol u))); [discriminate |].
  destruct (isProductionEnv env && _); [discriminate |].
  destruct (existsb _ Strict.suspiciousPatterns); [discriminate |].
  intros [= <-]. split; reflexivity.
Qed.

Lemma url_acceptance_is_monotone_witness :
  Permissive.validateUrl (Permissive.mkRequest exampleQuery None)
  = Next (Permissive.mkRequest exampleQuery (Some "https://example.com/")).
Proof.
  apply (url_acceptance_is_monotone production exampleQuery
           (Strict.mkRequest exampleQuery (Some "https://example.com/") None)).
  vm_compute. reflexivity.
Defined.

(** X9: the strict variant refuses, with a 400, every URL that contains
    [file://], [javascript:], [data:] or [vbscript:] in any letter case,
    wherever in the URL the text stands, in every environment. *)
Theorem suspicious_text_refused (env : Env) (q : Query) (url pattern : string) :
  In pattern Strict.suspiciousPatterns ->
  testIgnoreCase pattern url = true ->
  exists message,
    Strict.validateUrl env (Strict.mkRequest (<["url" := url]> q) None None)
    = Respond (Json 400 "Invalid URL" (Some message)).
Proof.
  intros I T. unfold Strict.validateUrl. cbn [Strict.query].
  rewrite lookup_insert_eq. destruct url as [| c r].
  { exfalso. cbn in I. destruct I as [<- | [<- | [<- | [<- | []]]]];
      vm_compute in T; discriminate T. }
  destruct (Strict.validateUrl_try env (String c r)) as [message |] eqn:E; [eauto |].
  exfalso. unfold Strict.validateUrl_try in E.
  destruct (URL_new (String c r)); [| discriminate].
  destruct (negb _); [discriminate |].
  destruct (_ && _); [discriminate |].
  assert (X : existsb (fun pattern => testIgnoreCase pattern (String c r))
                Strict.suspiciousPatterns = true)
    by (apply existsb_exists; eauto).
  rewrite X in E. discriminate.
Qed.

Lemma suspicious_text_refused_witness :
  exists message,
    Strict.validateUrl development
      (Strict.mkRequest (<["url" := "https://example.com/?next=DATA:text"]> exampleQuery)
         None None)
    = Respond (Json 400 "Invalid URL" (Some message)).
Proof.
  apply (suspicious_text_refused development exampleQuery
           "https://example.com/?next=DATA:text" "data:").
  - cbn. tauto.
  - vm_compute. reflexivity.
Defined.


(** *** The response of a request *)

Section Keeps.
Variable J : option Response -> Prop.

Lemma keeps_ret {A : Type} (a : A) : keeps J (mret a).
Proof. intros s H. exact H. Qed.

Lemma keeps_throw {A : Type} (e : string) : keeps J (@throw A e).
Proof. intros s H. exact H. Qed.

Lemma keeps_return {A : Type} : keeps J (@return_ A).
Proof. intros s H. exact H. Qed.

Lemma keeps_getState : keeps J getState.
Proof. intros s H. exact H. Qed.

Lemma keeps_setPage : keeps J setPage.
Proof. intros s H. exact H. Qed.

Lemma keeps_setBrowser : keeps J setBrowser.
Proof. intros s H. exact H. Qed.

Lemma keeps_emit (e : Event) : keeps J (emit e).
Proof. intros s H. exact H. Qed.

Lemma keeps_await (o : Outcome) : keeps J (await o).
Proof. destruct o; [apply keeps_ret | apply keeps_throw]. Qed.

Lemma keeps_send (r : Response) : (J None -> J (Some r)) -> keeps J (send r).
Proof.
  intros H s. unfold send. destruct (response s) eqn:E; cbn [snd response].
  - now rewrite E.
  - exact H.
Qed.

Lemma keeps_bind {A B : Type} (m : M A) (k : A -> M B) :
  keeps J m -> (forall a, keeps J (k a)) -> keeps J (m ≫= k).
Proof.
  intros Hm Hk s H. rewrite bind_run. specialize (Hm s H).
  destruct (m s) as [[a | e |] s']; cbn [snd] in *; try assumption.
  now apply Hk.
Qed.

Lemma keeps_call (e : Event) (o : Outcome) : keeps J (call e o).
Proof. apply keeps_bind; [apply keeps_emit | intros _; apply keeps_await]. Qed.

Lemma keeps_when (b : bool) (m : M unit) : keeps J m -> keeps J (when b m).
Proof. destruct b; [trivial | intros _; apply keeps_ret]. Qed.

Lemma keeps_tryCatch {A : Type} (m : M A) (h : string -> M A) :
  keeps J m -> (forall e, keeps J (h e)) -> keeps J (tryCatch m h).
Proof.
  intros Hm Hh s H. unfold tryCatch. specialize (Hm s H).
  destruct (m s) as [[a | e |] s']; cbn [snd] in *; try assumption.
  now apply Hh.
Qed.

Lemma keeps_tryFinally {A : Type} (m : M A) (f : M unit) :
  keeps J m -> keeps J f -> keeps J (tryFinally m f).
Proof.
  intros Hm Hf s H. unfold tryFinally. specialize (Hm s H).
  destruct (m s) as [c s']. cbn [snd] in *. specialize (Hf s' Hm).
  destruct (f s') as [[a | e |] s'']; exact Hf.
Qed.
End Keeps.

Ltac keeps_step :=
  first
    [ apply keeps_ret | apply keeps_throw | apply keeps_return | apply keeps_getState
    | apply keeps_setPage | apply keeps_setBrowser | apply keeps_await
    | apply keeps_call | apply keeps_emit
    | apply keeps_when
    | apply keeps_bind; [| intros ?]
    | apply keeps_tryCatch; [| intros ?]
    | apply keeps_tryFinally
    | match goal with |- keeps _ (match ?x with _ => _ end) => destruct x end
    | match goal with |- keeps _ (if ?x then _ else _) => destruct x end ].

Lemma answers_send (r : Response) : answers (send r).
Proof.
  intros s. unfold send. destruct (response s); cbn; [discriminate | eauto].
Qed.

Lemma answers_bind {A : Type} (m : M A) (k : A -> M unit) :
  (forall a, answers (k a)) -> answers (m ≫= k).
Proof.
  intros Hk s. rewrite bind_run.
  destruct (m s) as [[a | e |] s']; cbn [fst snd]; try discriminate.
  apply Hk.
Qed.

Lemma settles_bind {A B : Type} (m : M A) (k : A -> M B) :
  settles m -> (forall a, settles (k a)) -> settles (m ≫= k).
Proof.
  intros Hm Hk s. rewrite bind_run. specialize (Hm s).
  destruct (m s) as [[a | e |] s']; cbn [fst snd] in *; try discriminate.
  - apply Hk.
  - intros _. now apply Hm.
Qed.

Lemma settles_tryCatch {A : Type} (m : M A) (h : string -> M A) :
  settles m -> (forall e, settles (h e)) -> settles (tryCatch m h).
Proof.
  intros Hm Hh s. unfold tryCatch. specialize (Hm s).
  destruct (m s) as [[a | e |] s']; cbn [fst snd] in *; try discriminate.
  - apply Hh.
  - exact Hm.
Qed.

Lemma settles_call (e : Event) (o : Outcome) : settles (call e o).
Proof. intros s. destruct o; discriminate. Qed.

Lemma settles_when (b : bool) (m : M unit) : settles m -> settles (when b m).
Proof. destruct b; [trivial | intros _ s; discriminate]. Qed.

Ltac settles_step :=
  first
    [ apply settles_call
    | apply settles_when
    | apply settles_bind; [| intros ?]
    | apply settles_tryCatch; [| intros ?]
    | match goal with |- settles (match ?x with _ => _ end) => destruct x end
    | match goal with |- settles (if ?x then _ else _) => destruct x end
    | (intros ?; unfold_M; discriminate) ].

(** The classifier of the strict variant yields 400, 408 or 500. *)
Lemma classify_status (message : string) :
  In (Strict.classify message).1 [400; 408; 500].
Proof.
  unfold Strict.classify.
  repeat match goal with
         | |- context [if ?b then _ else _] => destruct b
         end; cbn; tauto.
Qed.

(** Whatever the body does, the state a [try/finally] ends in is the one
    its cleanup ends in. *)
Lemma tryFinally_state {A : Type} (m : M A) (f : M unit) (s : State) :
  (tryFinally m f s).2 = (f (m s).2).2.
Proof.
  unfold tryFinally. destruct (m s) as [c s']. cbn [snd].
  destruct (f s') as [[a | e |] s'']; reflexivity.
Qed.

Lemma settles_send (r : Response) : settles (send r).
Proof. intros s. unfold send. destruct (response s); discriminate. Qed.

(** Every refusal of the strict validators is a 400. *)
Lemma strict_refusal_status (env : Env) (q : Query) (res : Response) :
  Strict.validation env q = Respond res -> statusCode res = 400.
Proof.
  unfold Strict.validation, Strict.validateUrl, Strict.validateParams.
  cbn [Strict.query].
  destruct (q !! "url") as [[| c u] |]; try (intros [= <-]; reflexivity).
  destruct (Strict.validateUrl_try env (String c u)); [intros [= <-]; reflexivity |].
  cbn [Strict.query Strict.validatedUrl].
  destruct (Strict.validateParams_try q); [intros [= <-]; reflexivity | discriminate].
Qed.

(** The strict handler keeps every property of the response that holds of
    the responses it may send. *)
Lemma strict_handler_keeps (J : option Response -> Prop) (w : World)
    (req : Strict.Request) :
  (forall p, Strict.validatedParams req = Some p -> J None ->
             J (Some (Image (Strict.format p) (Strict.width p) (Strict.height p)))) ->
  (forall message, J None ->
     J (Some (Json (Strict.classify message).1 (Strict.classify message).2
                (Some message)))) ->
  keeps J (Strict.handler w req).
Proof.
  intros HI HJ. unfold Strict.handler.
  destruct (Strict.validatedParams req) as [p |]; [| apply keeps_throw].
  apply keeps_tryFinally.
  - apply keeps_tryCatch.
    + unfold Strict.handler_try, Strict.launchRace, Strict.navigate, Strict.capture.
      repeat keeps_step. apply keeps_send. now apply HI.
    + intros message. unfold Strict.handler_catch.
      specialize (HJ message). destruct (Strict.classify message) as [code errorMessage].
      repeat keeps_step. apply keeps_send. exact HJ.
  - unfold Strict.handler_finally. repeat keeps_step.
Qed.

Lemma strict_handler_try_answers (w : World) (url : string) (p : Strict.Params)
    (selector : option string) :
  answers (Strict.handler_try w url p selector).
Proof.
  unfold Strict.handler_try. repeat (apply answers_bind; intros ?). apply answers_send.
Qed.

Lemma strict_handler_try_settles (w : World) (url : string) (p : Strict.Params)
    (selector : option string) :
  settles (Strict.handler_try w url p selector).
Proof.
  unfold Strict.handler_try, Strict.launchRace, Strict.navigate, Strict.capture.
  repeat first [apply settles_send | settles_step].
Qed.

Lemma strict_handler_catch_responds (message : string) (s : State) :
  is_Some (response (Strict.handler_catch message s).2).
Proof.
  unfold Strict.handler_catch. destruct (Strict.classify message) as [code errorMessage].
  destruct s as [b pg [r |] t]; vm_compute; eauto.
Qed.

Lemma strict_handler_responds (w : World) (req : Strict.Request) (p : Strict.Params)
    (s : State) :
  Strict.validatedParams req = Some p ->
  is_Some (response (Strict.handler w req s).2).
Proof.
  intros P. unfold Strict.handler. rewrite P.
  assert (B : is_Some (response
                (tryCatch (Strict.handler_try w (default EmptyString (Strict.validatedUrl req))
                             p (Strict.query req !! "selector"))
                   Strict.handler_catch s).2)).
  { unfold tryCatch.
    pose proof (strict_handler_try_answers w (default EmptyString (Strict.validatedUrl req))
                  p (Strict.query req !! "selector") s) as A.
    pose proof (strict_handler_try_settles w (default EmptyString (Strict.validatedUrl req))
                  p (Strict.query req !! "selector") s) as R.
    destruct (Strict.handler_try _ _ _ _ s) as [[[] | e |] s']; cbn [fst snd] in *.
    - now apply A.
    - apply strict_handler_catch_responds.
    - now apply R. }
  rewrite tryFinally_state.
  assert (F : keeps is_Some (Strict.handler_finally w))
    by (unfold Strict.handler_finally; repeat keeps_step).
  apply F. exact B.
Qed.

Lemma strict_app_sent (env : Env) (w : World) (q : Query) (req : Strict.Request) :
  Strict.validation env q = Next req ->
  Strict.sent (Strict.app env w q)
  = response (Strict.handler w req
                (mkState false false
                   (if timerFires w then Some Strict.timeoutResponse else None) [])).2.
Proof.
  intros V. unfold Strict.app. rewrite V.
  destruct (Strict.handler w req _) as [c s]. reflexivity.
Qed.

(** X10: the strict route answers every request, in every world, and the
    status of the answer is 200, 400, 408 or 500. *)
Theorem strict_always_answers (env : Env) (w : World) (q : Query) :
  exists r, Strict.sent (Strict.app env w q) = Some r /\ knownStatus r.
Proof.
  destruct (Strict.validation env q) as [req | res] eqn:V.
  - rewrite (strict_app_sent env w q req V).
    pose proof V as V'. apply validation_Next in V'.
    destruct V' as (url & p & -> & _).
    set (s0 := mkState false false _ []).
    destruct (strict_handler_responds w (Strict.mkRequest q (Some url) (Some p))
                p s0 eq_refl) as [r R].
    exists r. split; [exact R |].
    assert (K : knownStatusIfSent (response (Strict.handler w
                  (Strict.mkRequest q (Some url) (Some p)) s0).2)).
    { apply (strict_handler_keeps knownStatusIfSent).
      - intros p' _ _. cbn. tauto.
      - intros message _. unfold knownStatusIfSent, knownStatus. cbn [statusCode].
        pose proof (classify_status message) as C. cbn in C. cbn. tauto.
      - subst s0. cbn [response]. destruct (timerFires w); cbn; tauto. }
    rewrite R in K. exact K.
  - exists res. unfold Strict.app. rewrite V. split; [reflexivity |].
    unfold knownStatus. rewrite (strict_refusal_status env q res V). cbn. tauto.
Qed.



(** X12: an image sent by the strict route declares the validated format
    and the validated dimensions of its request: a supported format, a
    width within 100..1920 and a height within 100..1080. *)
Theorem strict_image_echoes_request (env : Env) (w : World) (q : Query)
    (f : string) (wd ht : Num) :
  Strict.sent (Strict.app env w q) = Some (Image f wd ht) ->
  In f ["png"; "jpeg"; "webp"] /\
  f = toLowerCase (field q "format" "png") /\
  (exists n, wd = Some n /\ parseInt (field q "width" "1920") = Some n /\
             100 <= n <= 1920) /\
  (exists n, ht = Some n /\ parseInt (field q "height" "1080") = Some n /\
             100 <= n <= 1080).
Proof.
  intros S.
  destruct (Strict.validation env q) as [req | res] eqn:V.
  - rewrite (strict_app_sent env w q req V) in S.
    apply validation_Next in V. destruct V as (url & p & -> & _ & _ & P).
    assert (K : imageOf (Strict.format p) (Strict.width p) (Strict.height p)
                  (response (Strict.handler w
                     (Strict.mkRequest q (Some url) (Some p))
                     (mkState false false
                        (if timerFires w then Some Strict.timeoutResponse else None)
                        [])).2)).
    { apply strict_handler_keeps.
      - intros p' [= <-] _. cbn. auto.
      - intros message _. exact I.
      - cbn [response]. destruct (timerFires w); exact I. }
    rewrite S in K. cbn in K. destruct K as (-> & -> & ->).
    unfold Strict.validateParams_try in P. cbv zeta in P.
    repeat match type of P with
           | (if ?b then _ else _) = _ => destruct b eqn:?; [discriminate P |]
           end.
    injection P as <-. cbn [Strict.width Strict.height Strict.format] in *.
    repeat match goal with
           | E : negb _ = false |- _ => apply negb_false_iff, arrayIncludes_In in E
           | E : isNaN _ || _ || _ = false |- _ =>
               apply inBounds_inv in E; destruct E as (? & ? & ?)
           end.
    repeat split; eauto.
  - unfold Strict.app in S. rewrite V in S. cbn in S. injection S as ->.
    apply strict_refusal_status in V. discriminate V.
Qed.

Lemma strict_image_echoes_request_witness :
  In "jpeg" ["png"; "jpeg"; "webp"] /\
  "jpeg" = toLowerCase
             (field (<["format" := "JPEG"]> (<["width" := "800px"]> exampleQuery))
                "format" "png") /\
  (exists n, Some 800 = Some n /\
             parseInt (field (<["format" := "JPEG"]> (<["width" := "800px"]> exampleQuery))
                         "width" "1920") = Some n /\
             100 <= n <= 1920) /\
  (exists n, Some 1080 = Some n /\
             parseInt (field (<["format" := "JPEG"]> (<["width" := "800px"]> exampleQuery))
                         "height" "1080") = Some n /\
             100 <= n <= 1080).
Proof.
  apply (strict_image_echoes_request production allResolve
           (<["format" := "JPEG"]> (<["width" := "800px"]> exampleQuery))
           "jpeg" (Some 800) (Some 1080)).
  vm_compute. reflexivity.
Defined.

(** *** The permissive route in every world *)

(** The input validation either passes, leaving the state alone, or
    answers 400 and returns. *)
Lemma inputValidation_cases (q : Query) :
  Permissive.inputValidation q initial = (Normal tt, initial) \/
  exists error,
    Permissive.inputValidation q initial
    = (Return, mkState false false (Some (Json 400 error None)) []).
Proof.
  unfold Permissive.inputValidation, Permissive.reject, initial. cbv zeta.
  destruct (ltNum (parseInt (field q "width" "1920")) 100 || _);
    [right; eexists; reflexivity |].
  destruct (ltNum (parseInt (field q "height" "1080")) 100 || _);
    [right; eexists; reflexivity |].
  destruct (negb (arrayIncludes _ _));
    [right; eexists; reflexivity |].
  destruct (ltNum (parseInt (field q "quality" "80")) 1 || _);
    [right; eexists; reflexivity |].
  destruct (ltNum (parseInt (field q "delay" "0")) 0 || _);
    [right; eexists; reflexivity |].
  left. reflexivity.
Qed.

Lemma getBrowser_run (w : World) (s : State) :
  Permissive.getBrowser w s =
  match launch w with
  | Launched | LaunchedLate =>
      (Normal tt, mkState true (page s) (response s) (trace s ++ [Launch; BrowserUp]))
  | LaunchFails e | LaunchFailsLate e => (Throw e, after s [Launch])
  end.
Proof.
  unfold Permissive.getBrowser, after. destruct s as [b pg r t].
  destruct (launch w); unfold_M; rewrite <- ?app_assoc; reflexivity.
Qed.

Lemma permissive_handler_catch_quiet (p : Event -> bool) (message : string) :
  quiet p (Permissive.handler_catch message).
Proof.
  unfold Permissive.handler_catch.
  repeat first
    [ apply quiet_send | apply quiet_return
    | apply quiet_bind; [| intros ?]
    | match goal with |- quiet _ (if ?x then _ else _) => destruct x end ].
Qed.

(** The session counts of a run of the permissive handler, from the state
    a request starts in, up to the cleanup. *)
Lemma permissive_try_catch_session (w : World) (q : Query) :
  let s := (tryCatch (Permissive.handler_try w q) Permissive.handler_catch initial).2 in
  count isBrowserClose (trace s) = 0%nat /\
  count isBrowserUp (trace s) = (if browser s then 1 else 0)%nat /\
  (count isBrowserUp (trace s) <= count isLaunch (trace s) <= 1)%nat /\
  (Permissive.inputValidation q initial = (Normal tt, initial) ->
   count isLaunch (trace s) = 1%nat) /\
  (Permissive.inputValidation q initial <> (Normal tt, initial) -> trace s = []).
Proof.
  cbv zeta.
  assert (T : forall p, sessionKind p ->
            count p (trace (tryCatch (Permissive.handler_try w q)
                              Permissive.handler_catch initial).2)
            = count p (trace (Permissive.handler_try w q initial).2) /\
            browser (tryCatch (Permissive.handler_try w q)
                       Permissive.handler_catch initial).2
            = browser (Permissive.handler_try w q initial).2).
  { intros p _. unfold tryCatch.
    destruct (Permissive.handler_try w q initial) as [[[] | e |] s']; cbn [snd];
      try (split; reflexivity).
    apply permissive_handler_catch_quiet. }
  destruct (inputValidation_cases q) as [V | (error & V)].
  - assert (R : forall p, sessionKind p ->
              count p (trace (Permissive.handler_try w q initial).2)
              = count p (trace (Permissive.getBrowser w initial).2) /\
              browser (Permissive.handler_try w q initial).2
              = browser (Permissive.getBrowser w initial).2).
    { intros p H. unfold Permissive.handler_try. cbv zeta.
      rewrite bind_run, V, bind_run.
      destruct (Permissive.getBrowser w initial) as [[[] | e |] s']; cbn [snd];
        try (split; reflexivity).
      match goal with |- count p (trace (?m s').2) = _ /\ _ =>
        assert (Q : quiet p m); [| exact (Q s')]
      end.
      unfold Permissive.navigate, Permissive.capture.
      repeat first
        [ quiet_step H
        | match goal with |- quiet _ (if ?x then _ else _) => destruct x end ]. }
    destruct (T isLaunch sessionKind_isLaunch) as [TL _].
    destruct (T isBrowserUp sessionKind_isBrowserUp) as [TU _].
    destruct (T isBrowserClose sessionKind_isBrowserClose) as [TC TB].
    destruct (R isLaunch sessionKind_isLaunch) as [RL _].
    destruct (R isBrowserUp sessionKind_isBrowserUp) as [RU _].
    destruct (R isBrowserClose sessionKind_isBrowserClose) as [RC RB].
    rewrite TL, TU, TC, TB, RL, RU, RC, RB, getBrowser_run.
    destruct (launch w); cbn; repeat split; try lia; try reflexivity;
      intros X; contradiction.
  - assert (E : tryCatch (Permissive.handler_try w q) Permissive.handler_catch initial
                = (Return, mkState false false (Some (Json 400 error None)) [])).
    { unfold tryCatch, Permissive.handler_try. cbv zeta. rewrite bind_run, V. reflexivity. }
    rewrite E. cbn. repeat split; try lia.
    intros X. rewrite X in V. discriminate V.
Qed.

Lemma permissive_handler_finally_session (w : World) (s : State) :
  count isLaunch (trace (Permissive.handler_finally w s).2) = count isLaunch (trace s) /\
  count isBrowserUp (trace (Permissive.handler_finally w s).2)
  = count isBrowserUp (trace s) /\
  count isBrowserClose (trace (Permissive.handler_finally w s).2)
  = (count isBrowserClose (trace s) + if browser s then 1 else 0)%nat /\
  (browser s = false -> trace (Permissive.handler_finally w s).2 = trace s).
Proof.
  unfold Permissive.handler_finally. destruct s as [[] pg r t];
    destruct (browserClose w); unfold_M; rewrite ?count_snoc; cbn;
    repeat split; try lia; discriminate.
Qed.

Lemma permissive_app_calls (w : World) (q : Query) (req : Permissive.Request) :
  Permissive.validateUrl (Permissive.mkRequest q None) = Next req ->
  Permissive.calls (Permissive.app w q)
  = trace (Permissive.handler_finally w
             (tryCatch (Permissive.handler_try w q) Permissive.handler_catch initial).2).2
  /\
  Permissive.sent (Permissive.app w q)
  = response (Permissive.handler_finally w
             (tryCatch (Permissive.handler_try w q) Permissive.handler_catch initial).2).2.
Proof.
  intros V. unfold Permissive.app. rewrite V.
  apply permissive_validateUrl_Next in V.
  unfold Permissive.handler. rewrite V. fold initial.
  rewrite <- tryFinally_state.
  destruct (tryFinally _ _ initial) as [c s]. split; reflexivity.
Qed.

(** X13: in every world the permissive route launches at most one browser,
    and calls [browser.close()] exactly as many times as a browser came up:
    once when the launch succeeded, never otherwise. *)
Theorem permissive_session_accounting (w : World) (q : Query) :
  (count isBrowserUp (Permissive.calls (Permissive.app w q))
   <= count isLaunch (Permissive.calls (Permissive.app w q)) <= 1)%nat /\
  count isBrowserClose (Permissive.calls (Permissive.app w q))
  = count isBrowserUp (Permissive.calls (Permissive.app w q)) /\
  leaksBrowser (Permissive.calls (Permissive.app w q)) = false.
Proof.
  assert (A : (count isBrowserUp (Permissive.calls (Permissive.app w q))
               <= count isLaunch (Permissive.calls (Permissive.app w q)) <= 1)%nat /\
              count isBrowserClose (Permissive.calls (Permissive.app w q))
              = count isBrowserUp (Permissive.calls (Permissive.app w q))).
  { destruct (Permissive.validateUrl (Permissive.mkRequest q None)) as [req | res] eqn:V.
    - destruct (permissive_app_calls w q req V) as [-> _].
      pose proof (permissive_try_catch_session w q) as (C & U & L & _).
      cbv zeta in *.
      destruct (permissive_handler_finally_session w
                  (tryCatch (Permissive.handler_try w q)
                     Permissive.handler_catch initial).2) as (FL & FU & FC & _).
      rewrite FL, FU, FC, C, U. split; [rewrite <- U; exact L | reflexivity].
    - unfold Permissive.app. rewrite V. cbn. lia. }
  destruct A as (A1 & A2). repeat split; try assumption; try apply A1.
  unfold leaksBrowser. rewrite A2.
  destruct (count isBrowserUp _); reflexivity.
Qed.

Lemma permissive_input_refusal_run (w : World) (q : Query)
    (req : Permissive.Request) (error : string) :
  Permissive.validateUrl (Permissive.mkRequest q None) = Next req ->
  Permissive.inputValidation q initial
  = (Return, mkState false false (Some (Json 400 error None)) []) ->
  Permissive.app w q = Permissive.mkRun (Some (Json 400 error None)) [].
Proof.
  intros V P. unfold Permissive.app. rewrite V.
  apply permissive_validateUrl_Next in V.
  unfold Permissive.handler. rewrite V. fold initial.
  unfold tryFinally, tryCatch, Permissive.handler_try. cbv zeta.
  rewrite bind_run, P. unfold Permissive.handler_finally. unfold_M. reflexivity.
Qed.

(** X14: a request the permissive variant refuses, at its URL validator or
    at its input validation, is answered 400 before any browser call; a
    request it does not refuse launches a browser. *)
Theorem permissive_refusal_precedes_browser (w : World) (q : Query) :
  (forall res, Permissive.validateUrl (Permissive.mkRequest q None) = Respond res ->
     statusCode res = 400 /\ Permissive.app w q = Permissive.mkRun (Some res) []) /\
  (forall req, Permissive.validateUrl (Permissive.mkRequest q None) = Next req ->
     Permissive.inputValidation q initial <> (Normal tt, initial) ->
     exists error,
       Permissive.app w q = Permissive.mkRun (Some (Json 400 error None)) []) /\
  (forall req, Permissive.validateUrl (Permissive.mkRequest q None) = Next req ->
     Permissive.inputValidation q initial = (Normal tt, initial) ->
     count isLaunch (Permissive.calls (Permissive.app w q)) = 1%nat).
Proof.
  split; [| split].
  - intros res V. split.
    + unfold Permissive.validateUrl in V. cbn [Permissive.query] in V.
      destruct (q !! "url") as [[| c u] |]; try (injection V as <-; reflexivity).
      destruct (URL_new (String c u)); [| injection V as <-; reflexivity].
      destruct (negb _); [injection V as <-; reflexivity | discriminate V].
    + unfold Permissive.app. now rewrite V.
  - intros req V N.
    destruct (inputValidation_cases q) as [P | (error & P)]; [contradiction |].
    exists error. unfold Permissive.app. rewrite V.
    apply permissive_validateUrl_Next in V.
    unfold Permissive.handler. rewrite V. fold initial.
    unfold tryFinally, tryCatch, Permissive.handler_try. cbv zeta.
    rewrite bind_run, P. unfold Permissive.handler_finally. unfold_M. reflexivity.
  - intros req V P.
    destruct (permissive_app_calls w q req V) as [-> _].
    pose proof (permissive_try_catch_session w q) as (_ & _ & _ & L & _).
    cbv zeta in L.
    destruct (permissive_handler_finally_session w
                (tryCatch (Permissive.handler_try w q)
                   Permissive.handler_catch initial).2) as (FL & _).
    rewrite FL. now apply L.
Qed.

Lemma permissive_refusal_precedes_browser_witness :
  exists error,
    Permissive.app allResolve (<["width" := "99"]> exampleQuery)
    = Permissive.mkRun (Some (Json 400 error None)) [].
Proof.
  destruct (permissive_refusal_precedes_browser allResolve
              (<["width" := "99"]> exampleQuery)) as (_ & R & _).
  apply (R (Permissive.mkRequest (<["width" := "99"]> exampleQuery)
              (Some "https://example.com/"))).
  - vm_compute. reflexivity.
  - vm_compute. discriminate.
Defined.

Lemma settles_reject (error : string) : settles (Permissive.reject error).
Proof.
  intros s. unfold Permissive.reject. destruct s as [b pg [r |] t]; unfold_M; cbn; eauto.
Qed.

Lemma permissive_handler_keeps (J : option Response -> Prop) (w : World) (q : Query) :
  (J None ->
   J (Some (Image (field q "format" "png") (parseInt (field q "width" "1920"))
              (parseInt (field q "height" "1080"))))) ->
  (forall code error message, In code [400; 408; 500] -> J None ->
     J (Some (Json code error message))) ->
  keeps J (Permissive.handler w (Permissive.mkRequest q (q !! "url"))).
Proof.
  intros HI HJ. unfold Permissive.handler. cbn [Permissive.query].
  apply keeps_tryFinally.
  - apply keeps_tryCatch.
    + unfold Permissive.handler_try, Permissive.inputValidation, Permissive.reject,
        Permissive.getBrowser, Permissive.navigate, Permissive.capture.
      cbv zeta.
      repeat first [keeps_step | apply keeps_send; first [exact HI | apply HJ; cbn; tauto]].
    + intros message. unfold Permissive.handler_catch.
      repeat first [keeps_step | apply keeps_send; apply HJ; cbn; tauto].
  - unfold Permissive.handler_finally. repeat keeps_step.
Qed.

Lemma permissive_handler_responds (w : World) (q : Query) (s : State) :
  is_Some (response (Permissive.handler w (Permissive.mkRequest q (q !! "url")) s).2).
Proof.
  unfold Permissive.handler. cbn [Permissive.query].
  assert (B : is_Some (response
                (tryCatch (Permissive.handler_try w q) Permissive.handler_catch s).2)).
  { unfold tryCatch.
    assert (A : answers (Permissive.handler_try w q)).
    { unfold Permissive.handler_try. cbv zeta.
      repeat (apply answers_bind; intros ?). apply answers_send. }
    assert (R : settles (Permissive.handler_try w q)).
    { unfold Permissive.handler_try, Permissive.inputValidation, Permissive.getBrowser,
        Permissive.navigate, Permissive.capture. cbv zeta.
      repeat first [apply settles_send | apply settles_reject | settles_step]. }
    specialize (A s). specialize (R s).
    destruct (Permissive.handler_try w q s) as [[[] | e |] s']; cbn [fst snd] in *.
    - now apply A.
    - unfold Permissive.handler_catch.
      destruct (includes e _); [| destruct (includes e _)];
        destruct s' as [b pg [r |] t]; vm_compute; eauto.
    - now apply R. }
  rewrite tryFinally_state.
  assert (F : keeps is_Some (Permissive.handler_finally w))
    by (unfold Permissive.handler_finally; repeat keeps_step).
  apply F. exact B.
Qed.

Lemma permissive_refusal_status (q : Query) (res : Response) :
  Permissive.validateUrl (Permissive.mkRequest q None) = Respond res ->
  statusCode res = 400.
Proof.
  intros V. unfold Permissive.validateUrl in V. cbn [Permissive.query] in V.
  destruct (q !! "url") as [[| c u] |]; try (injection V as <-; reflexivity).
  destruct (URL_new (String c u)); [| injection V as <-; reflexivity].
  destruct (negb _); [injection V as <-; reflexivity | discriminate V].
Qed.

(** X15: whatever the browser does, the permissive route answers every
    request, with status 200, 400, 408 or 500. *)
Theorem permissive_always_answers (w : World) (q : Query) :
  exists r, Permissive.sent (Permissive.app w q) = Some r /\ knownStatus r.
Proof.
  destruct (Permissive.validateUrl (Permissive.mkRequest q None)) as [req | res] eqn:V.
  - destruct (permissive_app_calls w q req V) as [_ S].
    rewrite <- tryFinally_state in S.
    change (tryFinally _ _) with
      (Permissive.handler w (Permissive.mkRequest q (q !! "url"))) in S.
    destruct (permissive_handler_responds w q initial) as [r R].
    exists r. rewrite S. split; [exact R |].
    assert (K : knownStatusIfSent
                  (response (Permissive.handler w
                     (Permissive.mkRequest q (q !! "url")) initial).2)).
    { apply (permissive_handler_keeps knownStatusIfSent).
      - intros _. cbn. tauto.
      - intros code error message C _. unfold knownStatusIfSent, knownStatus.
        cbn [statusCode]. cbn in *. tauto.
      - exact Logic.I. }
    rewrite R in K. exact K.
  - exists res. unfold Permissive.app. rewrite V. split; [reflexivity |].
    unfold knownStatus. rewrite (permissive_refusal_status q res V). cbn. tauto.
Qed.

(** X16: an image sent by the permissive route declares the format field
    as given, one of the supported formats in lower case, and the parsed
    width and height, neither of which is below or above the bounds: each
    is a number within them, or not a number at all. *)
Theorem permissive_image_echoes_request (w : World) (q : Query)
    (f : string) (wd ht : Num) :
  Permissive.sent (Permissive.app w q) = Some (Image f wd ht) ->
  In f ["png"; "jpeg"; "webp"] /\
  f = field q "format" "png" /\
  wd = parseInt (field q "width" "1920") /\
  ht = parseInt (field q "height" "1080") /\
  (wd = None \/ exists n, wd = Some n /\ 100 <= n <= 3840) /\
  (ht = None \/ exists n, ht = Some n /\ 100 <= n <= 2160).
Proof.
  intros S.
  destruct (Permissive.validateUrl (Permissive.mkRequest q None)) as [req | res] eqn:V.
  - destruct (permissive_app_calls w q req V) as [_ S'].
    rewrite <- tryFinally_state in S'.
    change (tryFinally _ _) with
      (Permissive.handler w (Permissive.mkRequest q (q !! "url"))) in S'.
    assert (K : imageOf (field q "format" "png") (parseInt (field q "width" "1920"))
                  (parseInt (field q "height" "1080"))
                  (response (Permissive.handler w
                     (Permissive.mkRequest q (q !! "url")) initial).2)).
    { apply permissive_handler_keeps.
      - intros _. cbn. auto.
      - intros code error message _ _. exact Logic.I.
      - exact Logic.I. }
    rewrite <- S', S in K. cbn in K. destruct K as (-> & -> & ->).
    destruct (inputValidation_cases q) as [P | (error & P)].
    + unfold Permissive.inputValidation, Permissive.reject, initial in P. cbv zeta in P.
      destruct (ltNum (parseInt (field q "width" "1920")) 100 || _) eqn:W;
        [discriminate P |].
      destruct (ltNum (parseInt (field q "height" "1080")) 100 || _) eqn:H;
        [discriminate P |].
      destruct (negb (arrayIncludes _ _)) eqn:F; [discriminate P |].
      apply negb_false_iff, arrayIncludes_In in F.
      repeat split; try assumption; try reflexivity.
      * destruct (parseInt (field q "width" "1920")) as [n |]; [right | now left].
        exists n. split; [reflexivity |]. unfold ltNum, gtNum in W.
        apply orb_false_iff in W. destruct W. lia.
      * destruct (parseInt (field q "height" "1080")) as [n |]; [right | now left].
        exists n. split; [reflexivity |]. unfold ltNum, gtNum in H.
        apply orb_false_iff in H. destruct H. lia.
    + rewrite (permissive_input_refusal_run w q req error V P) in S. discriminate S.
  - unfold Permissive.app in S. rewrite V in S. cbn in S. injection S as ->.
    apply permissive_refusal_status in V. discriminate V.
Qed.

Lemma permissive_image_echoes_request_witness :
  In "jpeg" ["png"; "jpeg"; "webp"] /\
  "jpeg" = field (<["format" := "jpeg"]> (<["width" := "abc"]> exampleQuery)) "format" "png" /\
  None = parseInt (field (<["format" := "jpeg"]> (<["width" := "abc"]> exampleQuery))
                     "width" "1920") /\
  Some 1080 = parseInt (field (<["format" := "jpeg"]> (<["width" := "abc"]> exampleQuery))
                          "height" "1080") /\
  (@None Z = None \/ exists n, None = Some n /\ 100 <= n <= 3840) /\
  (Some 1080 = None \/ exists n, Some 1080 = Some n /\ 100 <= n <= 2160).
Proof.
  apply (permissive_image_echoes_request allResolve
           (<["format" := "jpeg"]> (<["width" := "abc"]> exampleQuery))
           "jpeg" None (Some 1080)).
  vm_compute. reflexivity.
Defined.

(** *** The life cycle of the browser session *)

Lemma stageOf_snoc (t : list Event) (e : Event) :
  stageOf (t ++ [e]) = advance (stageOf t) e.
Proof. unfold stageOf. now rewrite fold_left_app. Qed.

Lemma inStage_emit (a b : Stage) (e : Event) (s : State) :
  lifecycle a e = Some b ->
  (pageLive a = true -> pageLive b = true) ->
  (browserLive a = true -> browserLive b = true) ->
  inStage a s -> inStage b (emit e s).2.
Proof.
  intros D HP HB (T & Pg & Br). unfold emit, inStage.
  cbn [snd trace page browser]. rewrite stageOf_snoc, T. cbn [advance]. auto.
Qed.

Lemma coherent_inStage (st : Stage) (s : State) : inStage st s -> coherent s.
Proof. intros H. now exists st. Qed.

Section Hoare.

Context {A : Type}.

Lemma hoare_ret (P E : State -> Prop) (a : A) : hoare P (mret a) P E.
Proof. intros s H. exact H. Qed.

Lemma hoare_throw (P Q E : State -> Prop) (e : string) :
  (forall s, P s -> E s) -> hoare P (@throw A e) Q E.
Proof. intros I s H. now apply I. Qed.

Lemma hoare_bind {B : Type} (P Q R E : State -> Prop) (m : M A) (k : A -> M B) :
  hoare P m Q E -> (forall a, hoare Q (k a) R E) -> hoare P (m ≫= k) R E.
Proof.
  intros Hm Hk s H. specialize (Hm s H). rewrite bind_run.
  destruct (m s) as [[a | e |] s']; cbn [fst snd] in *; try exact Hm.
  now apply Hk.
Qed.

Lemma hoare_tryCatch (P Q E' E : State -> Prop) (m : M A) (h : string -> M A) :
  hoare P m Q E' -> (forall e, hoare E' (h e) Q E) -> (forall s, E' s -> E s) ->
  hoare P (tryCatch m h) Q E.
Proof.
  intros Hm Hh I s H. specialize (Hm s H). unfold tryCatch.
  destruct (m s) as [[a | e |] s']; cbn [fst snd] in *; auto.
  now apply Hh.
Qed.

Lemma hoare_weaken (P P' Q Q' E E' : State -> Prop) (m : M A) :
  hoare P' m Q' E' ->
  (forall s, P s -> P' s) -> (forall s, Q' s -> Q s) -> (forall s, E' s -> E s) ->
  hoare P m Q E.
Proof.
  intros Hm IP IQ IE s H. specialize (Hm s (IP s H)).
  destruct (m s).1; auto.
Qed.

End Hoare.

Lemma hoare_emit (a b : Stage) (e : Event) (E : State -> Prop) :
  lifecycle a e = Some b ->
  (pageLive a = true -> pageLive b = true) ->
  (browserLive a = true -> browserLive b = true) ->
  hoare (inStage a) (emit e) (inStage b) E.
Proof. intros D HP HB s H. now apply (inStage_emit a b). Qed.

Lemma hoare_call (a b : Stage) (e : Event) (o : Outcome) :
  lifecycle a e = Some b ->
  (pageLive a = true -> pageLive b = true) ->
  (browserLive a = true -> browserLive b = true) ->
  hoare (inStage a) (call e o) (inStage b) (inStage b).
Proof.
  intros D HP HB s H. pose proof (inStage_emit a b e s D HP HB H) as I.
  unfold call. rewrite bind_run. unfold emit in *. cbn [fst snd] in *.
  destruct o; exact I.
Qed.

Lemma hoare_when (P E : State -> Prop) (b : bool) (m : M unit) :
  hoare P m P E -> hoare P (when b m) P E.
Proof. intros H. destruct b; [exact H | apply hoare_ret]. Qed.

Lemma hoare_send (st : Stage) (r : Response) :
  hoare (inStage st) (send r) (inStage st) (inStage st).
Proof.
  intros s H. unfold send. destruct s as [b pg [r' |] t]; exact H.
Qed.

Lemma hoare_setPage (st : Stage) (E : State -> Prop) :
  pageLive st = true -> hoare (inStage st) setPage (inStage st) E.
Proof. intros L s (T & Pg & Br). unfold setPage, inStage. cbn. auto. Qed.

Lemma hoare_setBrowser (st : Stage) (E : State -> Prop) :
  browserLive st = true -> hoare (inStage st) setBrowser (inStage st) E.
Proof. intros L s (T & Pg & Br). unfold setBrowser, inStage. cbn. auto. Qed.

(** Steps that keep the stage, and steps that move it on. *)
Ltac stage_step :=
  first
    [ apply hoare_send
    | apply hoare_when
    | apply hoare_call; [reflexivity | auto | auto]
    | apply hoare_emit; [reflexivity | auto | auto]
    | apply hoare_setPage; reflexivity
    | apply hoare_setBrowser; reflexivity
    | apply hoare_ret ].

Lemma strict_handler_try_stages (w : World) (url : string) (p : Strict.Params)
    (selector : option string) :
  hoare (inStage Idle) (Strict.handler_try w url p selector) (inStage Navigated) coherent.
Proof.
  unfold Strict.handler_try.
  apply (hoare_bind _ (inStage Up)).
  { unfold Strict.launchRace. apply (hoare_bind _ (inStage Launching)).
    - stage_step.
    - intros _. destruct (launch w).
      + apply (hoare_bind _ (inStage Up)); [| intros _]; stage_step.
      + apply hoare_throw. apply coherent_inStage.
      + apply hoare_throw. apply coherent_inStage.
      + apply hoare_throw. apply coherent_inStage. }
  intros _. apply (hoare_bind _ (inStage PageOpen)).
  { eapply hoare_weaken; [apply (hoare_call Up PageOpen); [reflexivity | auto | auto] | auto | auto |].
    apply coherent_inStage. }
  intros _. apply (hoare_bind _ (inStage PageOpen)); [stage_step |].
  intros _. apply (hoare_bind _ (inStage PageOpen)).
  { eapply hoare_weaken; [apply (hoare_call PageOpen PageOpen); [reflexivity | auto | auto] | auto | auto |].
    apply coherent_inStage. }
  intros _. apply (hoare_bind _ (inStage PageOpen)).
  { eapply hoare_weaken; [apply (hoare_call PageOpen PageOpen); [reflexivity | auto | auto] | auto | auto |].
    apply coherent_inStage. }
  intros _. apply (hoare_bind _ (inStage PageOpen)).
  { apply hoare_when.
    eapply hoare_weaken; [apply (hoare_call PageOpen PageOpen); [reflexivity | auto | auto] | auto | auto |].
    apply coherent_inStage. }
  intros _. apply (hoare_bind _ (inStage PageOpen)).
  { eapply hoare_weaken; [apply (hoare_call PageOpen PageOpen); [reflexivity | auto | auto] | auto | auto |].
    apply coherent_inStage. }
  intros _. apply (hoare_bind _ (inStage Navigated)).
  { unfold Strict.navigate.
    apply (hoare_tryCatch _ _ (inStage Navigated)).
    - apply (hoare_call PageOpen Navigated); [reflexivity | auto | auto].
    - intros _. eapply hoare_weaken;
        [apply (hoare_call Navigated Navigated); [reflexivity | auto | auto] | auto | auto |].
      apply coherent_inStage.
    - apply coherent_inStage. }
  intros _. apply (hoare_bind _ (inStage Navigated)).
  { apply hoare_when.
    eapply hoare_weaken; [apply (hoare_call Navigated Navigated); [reflexivity | auto | auto] | auto | auto |].
    apply coherent_inStage. }
  intros _. apply (hoare_bind _ (inStage Navigated)).
  { eapply hoare_weaken; [apply (hoare_call Navigated Navigated); [reflexivity | auto | auto] | auto | auto |].
    apply coherent_inStage. }
  intros _. apply (hoare_bind _ (inStage Navigated)).
  { unfold Strict.capture. destruct (Strict.truthy selector).
    - cbv zeta. apply (hoare_tryCatch _ _ (inStage Navigated)).
      + apply (hoare_bind _ (inStage Navigated));
          [apply (hoare_call Navigated Navigated); [reflexivity | auto | auto] |].
        intros _. apply (hoare_bind _ (inStage Navigated)); [stage_step |].
        intros _. apply (hoare_bind _ (inStage Navigated)).
        * destruct (querySelector w); [apply hoare_ret | |]; apply hoare_throw; auto.
        * intros _. apply (hoare_call Navigated Navigated); [reflexivity | auto | auto].
      + intros e. apply hoare_throw. apply coherent_inStage.
      + apply coherent_inStage.
    - eapply hoare_weaken;
        [apply (hoare_call Navigated Navigated); [reflexivity | auto | auto] | auto | auto |].
      apply coherent_inStage. }
  intros _. eapply hoare_weaken; [apply (hoare_send Navigated) | auto | auto |].
  apply coherent_inStage.
Qed.

Lemma strict_handler_catch_stages (message : string) :
  hoare coherent (Strict.handler_catch message) coherent coherent.
Proof.
  intros s (st & H). unfold Strict.handler_catch.
  destruct (Strict.classify message) as [code errorMessage].
  destruct s as [b pg [r |] t]; unfold_M; cbn; now exists st.
Qed.

(** The cleanup closes what the handler holds, in order. *)
Lemma strict_handler_finally_stages (w : World) (s : State) :
  coherent s -> is_Some (stageOf (trace (Strict.handler_finally w s).2)).
Proof.
  intros (st & T & Pg & Br). unfold Strict.handler_finally.
  destruct s as [b pg r t]. cbn [trace page browser] in *.
  destruct pg, b; try specialize (Pg eq_refl); try specialize (Br eq_refl);
    destruct (pageClose w), (browserClose w); unfold_M;
    rewrite ?stageOf_snoc, ?T; destruct st; try discriminate; cbn; eauto.
Qed.

Lemma strict_handler_stages (w : World) (req : Strict.Request) (s : State) :
  inStage Idle s -> is_Some (stageOf (trace (Strict.handler w req s).2)).
Proof.
  intros H. unfold Strict.handler.
  destruct (Strict.validatedParams req) as [p |];
    [| destruct H as [T _]; unfold throw; cbn [snd]; rewrite T; eauto].
  rewrite tryFinally_state. apply strict_handler_finally_stages.
  pose proof (hoare_tryCatch (inStage Idle) coherent coherent coherent
                (Strict.handler_try w (default EmptyString (Strict.validatedUrl req)) p
                   (Strict.query req !! "selector"))
                Strict.handler_catch) as C.
  specialize (C (hoare_weaken _ _ _ _ _ _ _
                   (strict_handler_try_stages w _ p _)
                   (fun _ X => X) (coherent_inStage Navigated) (fun _ X => X))
                strict_handler_catch_stages (fun _ X => X) s H).
  destruct (tryCatch _ _ s).1; exact C.
Qed.

(** A launch that loses the race leaves the handler with the launch as its
    only call. *)
Lemma strict_late_launch_trace (w : World) (req : Strict.Request) (p : Strict.Params)
    (r : option Response) :
  Strict.validatedParams req = Some p ->
  launch w = LaunchedLate ->
  trace (Strict.handler w req (mkState false false r [])).2 = [Launch].
Proof.
  intros P L. unfold Strict.handler. rewrite P.
  rewrite tryFinally_state. unfold tryCatch, Strict.handler_try.
  rewrite bind_run, launchRace_run, L. unfold Strict.handler_catch, Strict.handler_finally.
  destruct (Strict.classify _) as [code errorMessage].
  destruct r; unfold_M; reflexivity.
Qed.

Lemma inStage_initial (r : option Response) : inStage Idle (mkState false false r []).
Proof. repeat split; discriminate. Qed.

Lemma permissive_handler_try_stages (w : World) (q : Query) :
  hoare (inStage Idle) (Permissive.handler_try w q) (inStage Navigated) coherent.
Proof.
  unfold Permissive.handler_try. cbv zeta.
  apply (hoare_bind _ (inStage Idle)).
  { unfold Permissive.inputValidation, Permissive.reject. cbv zeta.
    assert (R : forall error, hoare (inStage Idle) (Permissive.reject error)
                                (inStage Idle) coherent).
    { intros error. unfold Permissive.reject.
      apply (hoare_bind _ (inStage Idle)).
      - eapply hoare_weaken; [apply (hoare_send Idle) | auto | auto |].
        apply coherent_inStage.
      - intros _ s H. now exists Idle. }
    repeat (apply (hoare_bind _ (inStage Idle)); [apply hoare_when, R | intros _]).
    apply hoare_when, R. }
  intros _. apply (hoare_bind _ (inStage Up)).
  { unfold Permissive.getBrowser. apply (hoare_bind _ (inStage Launching)).
    - stage_step.
    - intros _. destruct (launch w).
      + apply (hoare_bind _ (inStage Up)); [| intros _]; stage_step.
      + apply hoare_throw. apply coherent_inStage.
      + apply (hoare_bind _ (inStage Up)); [| intros _]; stage_step.
      + apply hoare_throw. apply coherent_inStage. }
  intros _. apply (hoare_bind _ (inStage PageOpen)).
  { eapply hoare_weaken; [apply (hoare_call Up PageOpen); [reflexivity | auto | auto] | auto | auto |].
    apply coherent_inStage. }
  intros _. apply (hoare_bind _ (inStage PageOpen)).
  { eapply hoare_weaken; [apply (hoare_call PageOpen PageOpen); [reflexivity | auto | auto] | auto | auto |].
    apply coherent_inStage. }
  intros _. apply (hoare_bind _ (inStage PageOpen)).
  { apply hoare_when.
    eapply hoare_weaken; [apply (hoare_call PageOpen PageOpen); [reflexivity | auto | auto] | auto | auto |].
    apply coherent_inStage. }
  intros _. apply (hoare_bind _ (inStage PageOpen)).
  { eapply hoare_weaken; [apply (hoare_call PageOpen PageOpen); [reflexivity | auto | auto] | auto | auto |].
    apply coherent_inStage. }
  intros _. apply (hoare_bind _ (inStage Navigated)).
  { unfold Permissive.navigate.
    eapply hoare_weaken; [apply (hoare_call PageOpen Navigated); [reflexivity | auto | auto] | auto | auto |].
    apply coherent_inStage. }
  intros _. apply (hoare_bind _ (inStage Navigated)).
  { apply hoare_when.
    eapply hoare_weaken; [apply (hoare_call Navigated Navigated); [reflexivity | auto | auto] | auto | auto |].
    apply coherent_inStage. }
  intros _. apply (hoare_bind _ (inStage Navigated)).
  { unfold Permissive.capture. destruct (Permissive.truthy _).
    - cbv zeta. apply (hoare_bind _ (inStage Navigated)); [stage_step |].
      intros _. apply (hoare_bind _ (inStage Navigated)).
      + destruct (querySelector w); [apply hoare_ret | |]; apply hoare_throw;
          apply coherent_inStage.
      + intros _. eapply hoare_weaken;
          [apply (hoare_call Navigated Navigated); [reflexivity | auto | auto] | auto | auto |].
        apply coherent_inStage.
    - eapply hoare_weaken;
        [apply (hoare_call Navigated Navigated); [reflexivity | auto | auto] | auto | auto |].
      apply coherent_inStage. }
  intros _. eapply hoare_weaken; [apply (hoare_send Navigated) | auto | auto |].
  apply coherent_inStage.
Qed.

Lemma permissive_handler_catch_stages (message : string) :
  hoare coherent (Permissive.handler_catch message) coherent coherent.
Proof.
  intros s (st & H). unfold Permissive.handler_catch.
  destruct (includes message _); [| destruct (includes message _)];
    destruct s as [b pg [r |] t]; unfold_M; cbn; now exists st.
Qed.

Lemma permissive_handler_finally_stages (w : World) (s : State) :
  coherent s -> is_Some (stageOf (trace (Permissive.handler_finally w s).2)).
Proof.
  intros (st & T & Pg & Br). unfold Permissive.handler_finally.
  destruct s as [b pg r t]. cbn [trace page browser] in *.
  destruct b; try specialize (Br eq_refl);
    destruct (browserClose w); unfold_M;
    rewrite ?stageOf_snoc, ?T; destruct st; try discriminate; cbn; eauto.
Qed.

Lemma strict_session_conforms (env : Env) (w : World) (q : Query) :
  conforms (Strict.calls (Strict.app env w q)) = true.
Proof.
  unfold Strict.app.
  destruct (Strict.validation env q) as [req | res] eqn:V; [| reflexivity].
  apply validation_Next in V. destruct V as (url & p & -> & _).
  cbv zeta.
  pose proof (strict_handler_stages w (Strict.mkRequest q (Some url) (Some p)) _
                (inStage_initial (if timerFires w then Some Strict.timeoutResponse
                                  else None))) as [st T].
  pose proof (strict_late_launch_trace w (Strict.mkRequest q (Some url) (Some p)) p
                (if timerFires w then Some Strict.timeoutResponse else None)
                eq_refl) as L.
  destruct (Strict.handler w _ _) as [c s]. cbn [snd Strict.calls] in *.
  unfold conforms.
  destruct (launch w); rewrite ?app_nil_r, ?T; try reflexivity.
  now rewrite (L eq_refl).
Qed.

Lemma permissive_session_conforms (w : World) (q : Query) :
  conforms (Permissive.calls (Permissive.app w q)) = true.
Proof.
  destruct (Permissive.validateUrl (Permissive.mkRequest q None)) as [req | res] eqn:V.
  - destruct (permissive_app_calls w q req V) as [-> _].
    unfold conforms.
    destruct (permissive_handler_finally_stages w
                (tryCatch (Permissive.handler_try w q)
                   Permissive.handler_catch initial).2) as [st ->]; [| reflexivity].
    pose proof (hoare_tryCatch (inStage Idle) coherent coherent coherent
                  (Permissive.handler_try w q) Permissive.handler_catch) as C.
    specialize (C (hoare_weaken _ _ _ _ _ _ _
                     (permissive_handler_try_stages w q)
                     (fun _ X => X) (coherent_inStage Navigated) (fun _ X => X))
                  permissive_handler_catch_stages (fun _ X => X) initial
                  (inStage_initial None)).
    destruct (tryCatch _ _ initial).1; exact C.
  - unfold Permissive.app. rewrite V. reflexivity.
Qed.

(** X17: in every world and for every request, the browser calls of both
    variants follow the life cycle of a puppeteer session: the page is asked
    of a browser that came up, set up and navigated before its content is
    waited for, queried or captured, nothing is called on the page after
    [page.close()], and nothing at all after [browser.close()]. *)
Theorem session_follows_lifecycle (env : Env) (w : World) (q : Query) :
  conforms (Strict.calls (Strict.app env w q)) = true /\
  conforms (Permissive.calls (Permissive.app w q)) = true.
Proof.
  split; [apply strict_session_conforms | apply permissive_session_conforms].
Qed.

Lemma advance_None (t : list Event) : fold_left advance t None = None.
Proof. induction t as [| e t IH]; [reflexivity | exact IH]. Qed.

Lemma stageOf_split (t1 t2 : list Event) (e : Event) :
  conforms (t1 ++ e :: t2)%list = true ->
  exists a b, stageOf t1 = Some a /\ lifecycle a e = Some b /\
              is_Some (fold_left advance t2 (Some b)).
Proof.
  unfold conforms, stageOf. rewrite fold_left_app. cbn [fold_left].
  destruct (fold_left advance t1 (Some Idle)) as [a |]; cbn [advance].
  - destruct (lifecycle a e) as [b |] eqn:D.
    + intros H. exists a, b. split; [reflexivity | split; [exact D |]].
      destruct (fold_left advance t2 (Some b)); [eauto | discriminate H].
    + now rewrite advance_None.
  - now rewrite advance_None.
Qed.

Lemma navigated_after_goto (t : list Event) :
  stageOf t = Some Navigated -> existsb isGoto t = true.
Proof.
  induction t as [| e t IH] using rev_ind; [discriminate |].
  rewrite stageOf_snoc, existsb_app. cbn [existsb].
  destruct (stageOf t) as [a |]; [| discriminate].
  intros H. destruct e; cbn in *; rewrite ?orb_true_r; try reflexivity;
    destruct a; try discriminate H; rewrite IH; reflexivity.
Qed.

(** X18: wherever a screenshot call occurs among the browser calls of a
    run, of either variant, a navigation call was made before it; and
    [browser.close()], where it occurs, is the last call of the run. *)
Theorem capture_follows_navigation (env : Env) (w : World) (q : Query)
    (t1 t2 : list Event) (e : Event) :
  Strict.calls (Strict.app env w q) = (t1 ++ e :: t2)%list \/
  Permissive.calls (Permissive.app w q) = (t1 ++ e :: t2)%list ->
  (isCapture e = true -> existsb isGoto t1 = true) /\
  (e = BrowserClose -> t2 = []).
Proof.
  intros H.
  assert (C : conforms (t1 ++ e :: t2)%list = true).
  { destruct H as [<- | <-];
      [apply strict_session_conforms | apply permissive_session_conforms]. }
  apply stageOf_split in C. destruct C as (a & b & A & D & [c F]). split.
  - intros K. apply navigated_after_goto. rewrite A. f_equal.
    destruct e; try discriminate K; destruct a; try discriminate D; reflexivity.
  - intros ->. destruct a; try discriminate D; injection D as <-;
      destruct t2 as [| x t2]; try reflexivity; cbn in F;
      rewrite advance_None in F; discriminate F.
Qed.

Lemma capture_follows_navigation_witness :
  existsb isGoto (firstn 8 (Strict.calls (Strict.app production allResolve exampleQuery)))
  = true.
Proof.
  refine (proj1 (capture_follows_navigation production allResolve exampleQuery
                   (firstn 8 (Strict.calls (Strict.app production allResolve exampleQuery)))
                   (skipn 9 (Strict.calls (Strict.app production allResolve exampleQuery)))
                   (PageScreenshot (mkOptions "png" false (Some true) (Some false)
                                      ClipNull None))
                   _) eq_refl).
  left. vm_compute. reflexivity.
Defined.

(** *** When the screenshot is delivered *)

(** A run in a world whose outcomes are not known is followed by cases on
    the outcome it is waiting for; [settled] closes a run that has ended. *)
Ltac settled :=
  solve [ repeat match goal with
                 | |- context [Strict.classify ?m] => destruct (Strict.classify m)
                 | |- context [includes ?m ?x] => destruct (includes m x)
                 end;
          cbn; rewrite ?andb_false_r; reflexivity ].

Ltac on o := try (destruct o; unfold_M; try settled).









(** *** The documentation endpoint and the validators *)

Lemma strict_numeric_guard (name token : string) (n lo hi : Z) (q : Query)
    (p : Strict.Params) :
  In (name, lo, hi) [("width", 100, 1920); ("height", 100, 1080);
                     ("quality", 1, 100); ("delay", 0, 5000)] ->
  parseInt token = Some n ->
  Strict.validateParams_try q = inr p ->
  (exists p', Strict.validateParams_try (<[name := token]> q) = inr p') <->
  lo <= n <= hi.
Proof.
  intros I P H. unfold Strict.validateParams_try in H. cbv zeta in H.
  repeat match type of H with
         | (if ?b then _ else _) = _ => destruct b eqn:?; [discriminate H |]
         end.
  clear H.
  cbn in I. destruct I as [I | [I | [I | [I | []]]]]; injection I as <- <- <-;
    unfold Strict.validateParams_try; cbv zeta;
    rewrite ?field_insert_eq, ?field_insert_ne by discriminate;
    rewrite P;
    repeat match goal with E : _ = false |- _ => rewrite ?E; clear E end;
    match goal with
    | |- context [isNaN (Some n) || ltNum (Some n) ?lo || gtNum (Some n) ?hi] =>
        destruct (isNaN (Some n) || ltNum (Some n) lo || gtNum (Some n) hi) eqn:B
    end;
    (split;
     [ intros [p' E]; try discriminate E;
       apply inBounds_inv in B; destruct B as (v & [= <-] & B); exact B
     | intros R; try (rewrite (not_outOfBounds _ _ _ R) in B; discriminate B);
       eauto ]).
Qed.

Lemma permissive_numeric_guard (name token : string) (n lo hi : Z) (q : Query) :
  In (name, lo, hi) [("width", 100, 3840); ("height", 100, 2160);
                     ("quality", 1, 100); ("delay", 0, 10000)] ->
  parseInt token = Some n ->
  Permissive.inputValidation q initial = (Normal tt, initial) ->
  Permissive.inputValidation (<[name := token]> q) initial = (Normal tt, initial) <->
  lo <= n <= hi.
Proof.
  intros I P H. apply inputValidation_passes in H.
  destruct H as (H1 & H2 & H3 & H4 & H5).
  rewrite inputValidation_passes.
  cbn in I. destruct I as [I | [I | [I | [I | []]]]]; injection I as <- <- <-;
    rewrite ?field_insert_eq, ?field_insert_ne by discriminate;
    rewrite P;
    (split;
     [ intros (G1 & G2 & G3 & G4 & G5);
       match goal with
       | G : ltNum (Some n) _ || gtNum (Some n) _ = false |- _ =>
           cbn in G; apply orb_false_iff in G; destruct G as [Ga Gb];
           apply Z.ltb_ge in Ga; apply Z.ltb_ge in Gb; lia
       end
     | intros R; rewrite ?(inBounds _ _ _ R); auto ]).
Qed.

(** X21: the ranges the documentation endpoints give for width, height,
    quality and delay are the ones the validators enforce: a token that
    starts with decimal digits, put in place of a documented parameter of
    an accepted request, is accepted exactly when the integer it starts
    with lies in the documented range; and the documented default lies in
    that range. *)
Theorem documented_ranges_enforced (name range token : string) (default n : Z) :
  leadingInteger token = Some n -> hexPrefixed token = false ->
  (In (name, default, range) strictDocumentation ->
   exists lo hi,
     rangeOf range = Some (lo, hi) /\ lo <= default <= hi /\
     forall q p, Strict.validateParams_try q = inr p ->
       ((exists p', Strict.validateParams_try (<[name := token]> q) = inr p') <->
        lo <= n <= hi)) /\
  (In (name, default, range) permissiveDocumentation ->
   exists lo hi,
     rangeOf range = Some (lo, hi) /\ lo <= default <= hi /\
     forall q, Permissive.inputValidation q initial = (Normal tt, initial) ->
       (Permissive.inputValidation (<[name := token]> q) initial = (Normal tt, initial) <->
        lo <= n <= hi)).
Proof.
  intros Hv Hx. pose proof (parseInt_leadingInteger token n Hv Hx) as P. split.
  - intros I. cbn in I.
    destruct I as [I | [I | [I | [I | []]]]]; injection I as <- <- <-;
      eexists _, _; (split; [vm_compute; reflexivity |]); (split; [lia |]);
      intros q p H; apply (strict_numeric_guard _ token n _ _ q p); auto;
      cbn; tauto.
  - intros I. cbn in I.
    destruct I as [I | [I | [I | [I | []]]]]; injection I as <- <- <-;
      eexists _, _; (split; [vm_compute; reflexivity |]); (split; [lia |]);
      intros q H; apply (permissive_numeric_guard _ token n _ _ q); auto;
      cbn; tauto.
Qed.

Lemma documented_ranges_enforced_witness :
  exists lo hi,
    rangeOf "100-1920" = Some (lo, hi) /\ lo <= 1920 <= hi /\
    forall q p, Strict.validateParams_try q = inr p ->
      ((exists p', Strict.validateParams_try (<["width" := "800px"]> q) = inr p') <->
       lo <= 800 <= hi).
Proof.
  apply (proj1 (documented_ranges_enforced "width" "100-1920" "800px" 1920 800
                  eq_refl eq_refl)).
  cbn. tauto.
Defined.

(** *** Matching by substring *)

Lemma startsWith_spec (s p : string) :
  startsWith s p = true <-> exists b, s = p +:+ b.
Proof.
  revert s. induction p as [| a p IH]; intros s; cbn.
  - split; [intros _; now exists s | reflexivity].
  - destruct s as [| c s].
    + split; [discriminate | intros [b E]; discriminate E].
    + rewrite andb_true_iff, IH. split.
      * intros [E [b ->]]. apply Ascii.eqb_eq in E. subst. now exists b.
      * intros [b E]. injection E as -> ->. split; [apply Ascii.eqb_refl | now exists b].
Qed.

Lemma includes_spec (s sub : string) :
  includes s sub = true <-> exists a b, s = a +:+ sub +:+ b.
Proof.
  induction s as [| c s IH]; cbn [includes]; rewrite orb_true_iff, startsWith_spec.
  - split.
    + intros [[b E] | F]; [| discriminate F]. now exists EmptyString, b.
    + intros (a & b & E). left. destruct a as [| x a]; [now exists b | discriminate E].
  - rewrite IH. split.
    + intros [[b E] | (a & b & E)].
      * now exists EmptyString, b.
      * exists (String c a), b. cbn. now rewrite E.
    + intros (a & b & E). destruct a as [| x a].
      * left. now exists b.
      * right. cbn in E. injection E as -> E. now exists a, b.
Qed.

(** X22: the request listener decides by substring: it aborts a request
    exactly when its resource type is [font] or [media] or its URL has one
    of the five deny-listed domains anywhere in its text, in the host, the
    path or the query, and lets every other request continue. *)
Theorem listener_matches_anywhere (resourceType url : string) :
  (Strict.requestListener resourceType url = Abort <->
   resourceType = "font" \/ resourceType = "media" \/
   exists domain before after_,
     In domain Strict.blockedDomains /\ url = before +:+ domain +:+ after_) /\
  (Strict.requestListener resourceType url = Continue <->
   resourceType <> "font" /\ resourceType <> "media" /\
   forall domain before after_,
     In domain Strict.blockedDomains -> url <> before +:+ domain +:+ after_).
Proof.
  destruct (requestListener_spec resourceType url) as [A C].
  assert (A' : Strict.requestListener resourceType url = Abort <->
               resourceType = "font" \/ resourceType = "media" \/
               exists domain before after_,
                 In domain Strict.blockedDomains /\ url = before +:+ domain +:+ after_).
  { rewrite A. split.
    - intros [H | [H | (d & I & H)]]; auto.
      apply includes_spec in H. destruct H as (a & b & ->). right. right. eauto.
    - intros [H | [H | (d & a & b & I & ->)]]; auto.
      right. right. exists d. split; [exact I |]. apply includes_spec. eauto. }
  split; [exact A' |].
  rewrite C, A'. split.
  - intros N. repeat split; try (intros ->; apply N; auto).
    intros d a b I ->. apply N. right. right. eauto.
  - intros (F & M & D) [H | [H | (d & a & b & I & H)]]; try contradiction.
    exact (D d a b I H).
Qed.

(** *** The loopback alternatives of the private-host pattern *)


Lemma asciiLower_colon (c : ascii) : asciiLower c = ":"%char -> c = ":"%char.
Proof.
  destruct c as [[] [] [] [] [] [] [] []]; vm_compute; intros H;
    first [reflexivity | discriminate H].
Qed.








(** *** When the strict variant leaves a browser behind *)

Lemma strict_handler_leak (w : World) (url : string) (p : Strict.Params)
    (selector : option string) (r : option Response) :
  leaksBrowser
    (trace (tryFinally (tryCatch (Strict.handler_try w url p selector) Strict.handler_catch)
              (Strict.handler_finally w) (mkState false false r [])).2
     ++ match launch w with LaunchedLate => [BrowserUp] | _ => [] end)
  = match launch w with
    | Launched => resolves (newPage w) && negb (resolves (pageClose w))
    | LaunchedLate => true
    | _ => false
    end.
Proof.
  destruct w as [l o1 o2 o3 o4 o5 o6 o7 o8 o9 o10 qo o11 o12 o13 o14 tf].
  destruct p as [wd ht ql dl fmt fp mb dm].
  unfold Strict.handler_try, Strict.launchRace, Strict.navigate,
    Strict.capture, Strict.handler_catch, Strict.handler_finally.
  cbn [launch newPage setViewport setUserAgent emulateMediaFeatures
       setRequestInterception gotoPrimary gotoFallback waitForTimeout evaluate
       waitForSelector querySelector elementScreenshot pageScreenshot
       pageClose browserClose
       Strict.darkMode Strict.delay Strict.width Strict.height Strict.format
       Strict.mobile].
  destruct r, (Strict.truthy selector), (gtNum dl 0), dm; unfold_M;
    on l; on o1; on o13; on o14; on o2; on o3; on o4; on o5; on o6; on o7; on o8;
    on o9; on o10; on qo; on o11; on o12.
Qed.

(** X24: a validated request of the strict route leaves a browser running,
    one that came up and is never closed, in exactly two cases: the launch
    succeeds only after the 10 s launch race was lost; or the page was
    opened and [page.close()] rejects, which makes the cleanup skip
    [browser.close()].  Nothing else in the run matters. *)
Theorem strict_leak_iff (env : Env) (w : World) (q : Query) (req : Strict.Request) :
  Strict.validation env q = Next req ->
  leaksBrowser (Strict.calls (Strict.app env w q))
  = match launch w with
    | Launched => resolves (newPage w) && negb (resolves (pageClose w))
    | LaunchedLate => true
    | _ => false
    end.
Proof.
  intros V. unfold Strict.app. rewrite V.
  apply validation_Next in V. destruct V as (url & p & -> & _).
  cbv zeta.
  pose proof (strict_handler_leak w url p (q !! "selector")
                (if timerFires w then Some Strict.timeoutResponse else None)) as L.
  unfold Strict.handler.
  cbn [Strict.validatedParams Strict.validatedUrl Strict.query default].
  destruct (tryFinally _ _ _) as [c s]. exact L.
Qed.

Lemma strict_leak_iff_witness :
  leaksBrowser
    (Strict.calls
       (Strict.app production (withPageClose (Rejects "Target closed") allResolve)
          exampleQuery))
  = true.
Proof.
  apply (strict_leak_iff production (withPageClose (Rejects "Target closed") allResolve)
           exampleQuery
           (Strict.mkRequest exampleQuery (Some "https://example.com/")
              (Some (Strict.mkParams (Some 1920) (Some 1080) (Some 80) (Some 0) "png"
                       false false false)))).
  vm_compute. reflexivity.
Defined.

(** *** What the browser is asked to do *)

Section Emits.

Variable P : Event -> Prop.

Lemma emits_ret {A : Type} (a : A) : emits P (mret a).
Proof. intros s H. exact H. Qed.

Lemma emits_throw {A : Type} (e : string) : emits P (@throw A e).
Proof. intros s H. exact H. Qed.

Lemma emits_return {A : Type} : emits P (@return_ A).
Proof. intros s H. exact H. Qed.

Lemma emits_getState : emits P getState.
Proof. intros s H. exact H. Qed.

Lemma emits_setPage : emits P setPage.
Proof. intros s H. exact H. Qed.

Lemma emits_setBrowser : emits P setBrowser.
Proof. intros s H. exact H. Qed.

Lemma emits_send (r : Response) : emits P (send r).
Proof. intros s H. unfold send. destruct (response s); exact H. Qed.

Lemma emits_await (o : Outcome) : emits P (await o).
Proof. intros s H. destruct o; exact H. Qed.

Lemma emits_emit (e : Event) : P e -> emits P (emit e).
Proof.
  intros He s H. unfold emit. cbn [snd trace].
  apply Forall_app. split; [exact H | now constructor].
Qed.

Lemma emits_bind {A B : Type} (m : M A) (k : A -> M B) :
  emits P m -> (forall a, emits P (k a)) -> emits P (m ≫= k).
Proof.
  intros Hm Hk s H. specialize (Hm s H). rewrite bind_run.
  destruct (m s) as [[a | e |] s']; cbn [fst snd] in *; try exact Hm.
  now apply Hk.
Qed.

Lemma emits_call (e : Event) (o : Outcome) : P e -> emits P (call e o).
Proof.
  intros He. apply emits_bind; [now apply emits_emit | intros _; apply emits_await].
Qed.

Lemma emits_when (b : bool) (m : M unit) : (b = true -> emits P m) -> emits P (when b m).
Proof. intros H. destruct b; [now apply H | apply emits_ret]. Qed.

Lemma emits_tryCatch {A : Type} (m : M A) (h : string -> M A) :
  emits P m -> (forall e, emits P (h e)) -> emits P (tryCatch m h).
Proof.
  intros Hm Hh s H. specialize (Hm s H). unfold tryCatch.
  destruct (m s) as [[a | e |] s']; cbn [fst snd] in *; try exact Hm.
  now apply Hh.
Qed.

Lemma emits_tryFinally {A : Type} (m : M A) (f : M unit) :
  emits P m -> emits P f -> emits P (tryFinally m f).
Proof.
  intros Hm Hf s H. rewrite tryFinally_state. apply Hf, Hm, H.
Qed.

End Emits.

(** A walk along the syntax of a handler, leaving what each call has to
    satisfy. *)
Ltac emits_walk :=
  repeat lazymatch goal with
         | |- emits _ (mbind _ _) => apply emits_bind; [| intros ?]
         | |- emits _ (tryCatch _ _) => apply emits_tryCatch; [| intros ?]
         | |- emits _ (tryFinally _ _) => apply emits_tryFinally
         | |- emits _ (when _ _) => apply emits_when; intros ?
         | |- emits _ (call _ _) => apply emits_call
         | |- emits _ (emit _) => apply emits_emit
         | |- emits _ (send _) => apply emits_send
         | |- emits _ (throw _) => apply emits_throw
         | |- emits _ (mret _) => apply emits_ret
         | |- emits _ return_ => apply emits_return
         | |- emits _ getState => apply emits_getState
         | |- emits _ setPage => apply emits_setPage
         | |- emits _ setBrowser => apply emits_setBrowser
         | |- emits _ (match ?x with _ => _ end) => destruct x eqn:?
         end.

Lemma truthy_selector (selector : option string) :
  Strict.truthy selector = true ->
  selector = Some (default EmptyString selector) /\
  default EmptyString selector <> EmptyString.
Proof. destruct selector as [[| c r] |]; try discriminate. intros _. now split. Qed.

Lemma strict_handler_emits (w : World) (url : string) (p : Strict.Params) (q : Query) :
  emits (asValidated url p (q !! "selector"))
    (Strict.handler w (Strict.mkRequest q (Some url) (Some p))).
Proof.
  unfold Strict.handler, Strict.handler_try, Strict.launchRace, Strict.navigate,
    Strict.capture, Strict.handler_catch, Strict.handler_finally.
  cbn [Strict.validatedParams Strict.validatedUrl Strict.query default].
  cbv zeta. emits_walk;
    try match goal with
        | T : Strict.truthy _ = true |- _ => destruct (truthy_selector _ T)
        end;
    cbn [asValidated]; auto.
Qed.

(** X25: whatever the strict handler asks of the browser, it asks with the
    validated values of the request: the viewport is the validated width
    and height, the only address navigated to is the validated URL, the
    wait is the validated delay, the selector waited for and queried is the
    request's, and the capture options are those built from the validated
    parameters; this holds in every world, on every path. *)
Theorem strict_calls_carry_validated_values (env : Env) (w : World) (q : Query)
    (url : string) (p : Strict.Params) :
  Strict.validation env q = Next (Strict.mkRequest q (Some url) (Some p)) ->
  q !! "url" = Some url /\ Strict.validateParams_try q = inr p /\
  Forall (asValidated url p (q !! "selector")) (Strict.calls (Strict.app env w q)).
Proof.
  intros V. pose proof (validation_Next env q _ V) as (url' & p' & E & U & _ & R).
  injection E as <- <-. split; [exact U |]. split; [exact R |].
  unfold Strict.app. rewrite V. cbv zeta.
  pose proof (strict_handler_emits w url p q
                (mkState false false
                   (if timerFires w then Some Strict.timeoutResponse else None) [])
                (List.Forall_nil _)) as H.
  destruct (Strict.handler w _ _) as [c s]. cbn [snd Strict.calls] in *.
  apply Forall_app. split; [exact H |].
  destruct (launch w); repeat constructor.
Qed.

Lemma strict_calls_carry_validated_values_witness :
  Forall (asValidated "https://example.com/"
            (Strict.mkParams (Some 800) (Some 1080) (Some 80) (Some 0) "png"
               false false false)
            ((<["width" := "800"]> exampleQuery) !! "selector"))
    (Strict.calls (Strict.app production (withGoto (Rejects "net::ERR_FAILED") Resolves
                                             allResolve)
                     (<["width" := "800"]> exampleQuery))).
Proof.
  apply (strict_calls_carry_validated_values production
           (withGoto (Rejects "net::ERR_FAILED") Resolves allResolve)
           (<["width" := "800"]> exampleQuery) "https://example.com/"
           (Strict.mkParams (Some 800) (Some 1080) (Some 80) (Some 0) "png"
              false false false)).
  vm_compute. reflexivity.
Defined.

Lemma permissive_truthy_selector (selector : option string) :
  Permissive.truthy selector = true ->
  selector = Some (default EmptyString selector) /\
  default EmptyString selector <> EmptyString.
Proof. destruct selector as [[| c r] |]; try discriminate. intros _. now split. Qed.

Lemma permissive_handler_emits (w : World) (q : Query) (url : string) :
  q !! "url" = Some url ->
  emits (asRequested q) (Permissive.handler w (Permissive.mkRequest q (Some url))).
Proof.
  intros U.
  unfold Permissive.handler, Permissive.handler_try, Permissive.inputValidation,
    Permissive.reject, Permissive.getBrowser, Permissive.navigate, Permissive.capture,
    Permissive.handler_catch, Permissive.handler_finally.
  cbn [Permissive.query]. cbv zeta. rewrite U. cbn [default].
  emits_walk;
    try match goal with
        | T : Permissive.truthy _ = true |- _ => destruct (permissive_truthy_selector _ T)
        end;
    try match goal with
        | D : String.eqb _ "true" = true |- _ => apply String.eqb_eq in D
        end;
    cbn [asRequested Permissive.screenshotOptions type]; auto.
Qed.

(** X26: whatever the permissive handler asks of the browser, it asks with
    the values of the query: the viewport is the parsed width and height,
    the only address navigated to is the [url] parameter, once, with a 30 s
    timeout, the wait is the parsed delay, the selector queried is the
    request's and the capture has the requested format; and it never turns
    request interception on, never waits for a selector, never evaluates a
    script in the page and never closes the page itself. *)
Theorem permissive_calls_carry_request_values (w : World) (q : Query)
    (req : Permissive.Request) :
  Permissive.validateUrl (Permissive.mkRequest q None) = Next req ->
  Forall (asRequested q) (Permissive.calls (Permissive.app w q)).
Proof.
  intros V. unfold Permissive.app. rewrite V.
  unfold Permissive.validateUrl in V. cbn [Permissive.query] in V.
  destruct (q !! "url") as [[| c u] |] eqn:U; try discriminate V.
  destruct (URL_new (String c u)); [| discriminate V].
  destruct (negb _); [discriminate V |]. injection V as <-.
  pose proof (permissive_handler_emits w q (String c u) U
                (mkState false false None []) (List.Forall_nil _)) as H.
  destruct (Permissive.handler w _ _) as [c' s]. exact H.
Qed.

Lemma permissive_calls_carry_request_values_witness :
  Forall (asRequested (<["delay" := "250"]> exampleQuery))
    (Permissive.calls (Permissive.app allResolve (<["delay" := "250"]> exampleQuery))).
Proof.
  apply (permissive_calls_carry_request_values allResolve
           (<["delay" := "250"]> exampleQuery)
           (Permissive.mkRequest (<["delay" := "250"]> exampleQuery)
              (Some "https://example.com/"))).
  vm_compute. reflexivity.
Defined.

(** *** The two variants side by side *)

(** X27: the permissive variant accepts whatever the strict variant
    accepts, provided the format is written in lower case: its URL
    validator passes the request on and its input validation finds nothing
    to refuse. *)
Theorem strict_acceptance_implies_permissive (env : Env) (q : Query)
    (req : Strict.Request) :
  Strict.validation env q = Next req ->
  toLowerCase (field q "format" "png") = field q "format" "png" ->
  Permissive.validateUrl (Permissive.mkRequest q None)
  = Next (Permissive.mkRequest q (Strict.validatedUrl req)) /\
  Permissive.inputValidation q initial = (Normal tt, initial).
Proof.
  intros V F. apply validation_Next in V. destruct V as (url & p & -> & U & T & P).
  cbn [Strict.validatedUrl]. split.
  - unfold Permissive.validateUrl. cbn [Permissive.query]. rewrite U.
    unfold Strict.validateUrl_try in T.
    destruct url as [| c r]; [vm_compute in T; discriminate T |].
    destruct (URL_new (String c r)) as [u |]; [| discriminate T].
    destruct (negb (arrayIncludes _ (protocol u))); [discriminate T | reflexivity].
  - apply inputValidation_passes.
    unfold Strict.validateParams_try in P. cbv zeta in P.
    repeat match type of P with
           | (if ?b then _ else _) = _ => destruct b eqn:?; [discriminate P |]
           end.
    clear P.
    repeat match goal with
           | E : negb (arrayIncludes ["png"; "jpeg"; "webp"] _) = false |- _ =>
               apply negb_false_iff in E; rewrite F in E
           | E : isNaN _ || _ || _ = false |- _ =>
               apply inBounds_inv in E; destruct E as (? & -> & ?)
           end.
    repeat split; try assumption; apply inBounds; lia.
Qed.

Lemma strict_acceptance_implies_permissive_witness :
  Permissive.validateUrl (Permissive.mkRequest (<["format" := "webp"]> exampleQuery) None)
  = Next (Permissive.mkRequest (<["format" := "webp"]> exampleQuery)
            (Some "https://example.com/")) /\
  Permissive.inputValidation (<["format" := "webp"]> exampleQuery) initial
  = (Normal tt, initial).
Proof.
  apply (strict_acceptance_implies_permissive production
           (<["format" := "webp"]> exampleQuery)
           (Strict.mkRequest (<["format" := "webp"]> exampleQuery)
              (Some "https://example.com/")
              (Some (Strict.mkParams (Some 1920) (Some 1080) (Some 80) (Some 0) "webp"
                       false false false)))).
  - vm_compute. reflexivity.
  - vm_compute. reflexivity.
Defined.

(** *** Refusals and launches of the strict route *)

(** X28: a request the strict validators refuse is answered 400 before any
    browser call, in every world; a request they accept launches a browser
    exactly once. *)
Theorem strict_refusal_precedes_browser (env : Env) (w : World) (q : Query) :
  (forall res, Strict.validation env q = Respond res ->
     statusCode res = 400 /\ Strict.app env w q = Strict.mkRun (Some res) []) /\
  (forall req, Strict.validation env q = Next req ->
     count isLaunch (Strict.calls (Strict.app env w q)) = 1%nat).
Proof.
  split.
  - intros res V. split; [exact (strict_refusal_status env q res V) |].
    unfold Strict.app. now rewrite V.
  - intros req V. exact (proj1 (strict_session_accounting env w q req V)).
Qed.

Lemma strict_refusal_precedes_browser_witness :
  statusCode (Json 400 "Invalid parameters"
                (Some "Height must be between 100 and 1080 pixels")) = 400 /\
  Strict.app production allResolve (<["height" := "12e3"]> exampleQuery)
  = Strict.mkRun (Some (Json 400 "Invalid parameters"
                          (Some "Height must be between 100 and 1080 pixels"))) [].
Proof.
  apply (proj1 (strict_refusal_precedes_browser production allResolve
                  (<["height" := "12e3"]> exampleQuery))).
  vm_compute. reflexivity.
Defined.
